(** * predict_pv_yield: the transformers of [src/features/transformers.py]

    A shallow embedding of [RobustMinMaxScaler] and [ClearskyScalar] and the
    properties of their specification.

    - Cells.  The cells of a table are numbers of a numeric type [A] with
      the operations numpy applies to them elementwise.  Two instances are
      given: [binary64], the IEEE 754 double precision numbers numpy and
      pandas compute with (Rocq's primitive floats), and [exact], the same
      special values (NaN, signed infinities) around exact rationals, which
      is the arithmetic the specification has in mind when it says "up to
      floating-point tolerance".
    - Tables.  A [DataFrame] is its index, its column labels and its rows;
      a [numpy] array is its rows.
    - Effects.  A method is a computation over the objects it can reach,
      which returns a value or raises an exception and leaves those objects
      in a new state: the scaler and the caller's table for
      [ClearskyScalar], the scaler for [RobustMinMaxScaler].
    - Libraries.  What the methods call in pandas, numpy and scikit-learn
      ([DataFrame.clip], [DataFrame.where], [np.nanmin],
      [MinMaxScaler.partial_fit], [check_is_fitted], ...) is modelled after
      the documented behaviour of those libraries.  The solar model
      ([spa_python], [haurwitz]) and the percentile of a column
      ([np.nanpercentile]) are parameters. *)

From Stdlib Require Import ZArith List Bool Lia QArith Qcanon.
From Stdlib Require String.
From Stdlib Require Import Floats.
Import ListNotations.

Set Implicit Arguments.
Close Scope Qc_scope.
Close Scope Q_scope.
Open Scope nat_scope.

(** ** Cell arithmetic *)

Class Arith (A : Type) := {
  nan : A;
  of_Z : Z -> A;
  add : A -> A -> A;
  sub : A -> A -> A;
  mul : A -> A -> A;
  div : A -> A -> A;
  eqb : A -> A -> bool;
  ltb : A -> A -> bool;
  leb : A -> A -> bool;
  isnan : A -> bool;
  isinf : A -> bool
}.

Definition gtb {A} `{Arith A} (x y : A) : bool := ltb y x.
Definition geb {A} `{Arith A} (x y : A) : bool := leb y x.
Definition zero {A} `{Arith A} : A := of_Z 0.
Definition one {A} `{Arith A} : A := of_Z 1.
Definition hundred {A} `{Arith A} : A := of_Z 100.

(** What IEEE 754 and numpy promise about the missing value: it is absorbing
    for the four operations and unordered with everything.  And of the
    order: less excludes greater or equal, and adding zero changes neither
    the comparison with zero nor the order of two numbers. *)
Class ArithLaws (A : Type) (AR : Arith A) := {
  isnan_nan : isnan nan = true;
  add_nan_l : forall x y, isnan x = true -> isnan (add x y) = true;
  add_nan_r : forall x y, isnan y = true -> isnan (add x y) = true;
  sub_nan_l : forall x y, isnan x = true -> isnan (sub x y) = true;
  sub_nan_r : forall x y, isnan y = true -> isnan (sub x y) = true;
  mul_nan_l : forall x y, isnan x = true -> isnan (mul x y) = true;
  mul_nan_r : forall x y, isnan y = true -> isnan (mul x y) = true;
  div_nan_l : forall x y, isnan x = true -> isnan (div x y) = true;
  div_nan_r : forall x y, isnan y = true -> isnan (div x y) = true;
  eqb_nan_l : forall x y, isnan x = true -> eqb x y = false;
  ltb_nan_l : forall x y, isnan x = true -> ltb x y = false;
  ltb_nan_r : forall x y, isnan y = true -> ltb x y = false;
  leb_nan_l : forall x y, isnan x = true -> leb x y = false;
  leb_nan_r : forall x y, isnan y = true -> leb x y = false;
  isinf_nan : forall x, isnan x = true -> isinf x = false;
  ltb_leb_false : forall x y, ltb x y = true -> leb y x = false;
  add_zero_eqb : forall x, eqb (add x zero) zero = eqb x zero;
  add_zero_ltb : forall x y, ltb (add x zero) (add y zero) = ltb x y
}.

(** *** IEEE 754 binary64 *)

Module Binary64.

Definition float_of_Z (z : Z) : float :=
  match z with
  | Z0 => PrimFloat.zero
  | Zpos _ => PrimFloat.of_uint63 (Uint63.of_Z z)
  | Zneg p => PrimFloat.opp (PrimFloat.of_uint63 (Uint63.of_Z (Zpos p)))
  end.

#[export] Instance binary64 : Arith float := {
  nan := PrimFloat.nan;
  of_Z := float_of_Z;
  add := PrimFloat.add;
  sub := PrimFloat.sub;
  mul := PrimFloat.mul;
  div := PrimFloat.div;
  eqb := PrimFloat.eqb;
  ltb := PrimFloat.ltb;
  leb := PrimFloat.leb;
  isnan := PrimFloat.is_nan;
  isinf := PrimFloat.is_infinity
}.

(** Adding [+0] leaves a number as it is, up to the sign of a zero. *)
Definition zero_fix (s : spec_float) : spec_float :=
  match s with
  | S754_zero _ => S754_zero false
  | _ => s
  end.

End Binary64.

(** *** Exact arithmetic with the IEEE special values *)

Module Exact.

Local Open Scope Qc_scope.

Inductive exact : Type :=
| ENaN
| EInf (neg : bool)
| EFin (q : Qc).

Definition Qc_eqb (p q : Qc) : bool := Qeq_bool p q.
Definition Qc_leb (p q : Qc) : bool := Qle_bool p q.
Definition Qc_ltb (p q : Qc) : bool := negb (Qle_bool q p).
Definition Qc_neg (q : Qc) : bool := Qc_ltb q 0.

Definition eopp (x : exact) : exact :=
  match x with
  | ENaN => ENaN
  | EInf s => EInf (negb s)
  | EFin q => EFin (- q)
  end.

Definition eadd (x y : exact) : exact :=
  match x, y with
  | ENaN, _ | _, ENaN => ENaN
  | EInf s, EInf s' => if Bool.eqb s s' then EInf s else ENaN
  | EInf s, EFin _ => EInf s
  | EFin _, EInf s => EInf s
  | EFin p, EFin q => EFin (p + q)
  end.

Definition esub (x y : exact) : exact := eadd x (eopp y).

Definition emul (x y : exact) : exact :=
  match x, y with
  | ENaN, _ | _, ENaN => ENaN
  | EInf s, EInf s' => EInf (xorb s s')
  | EInf s, EFin q | EFin q, EInf s =>
      if Qc_eqb q 0 then ENaN else EInf (xorb s (Qc_neg q))
  | EFin p, EFin q => EFin (p * q)
  end.

Definition ediv (x y : exact) : exact :=
  match x, y with
  | ENaN, _ | _, ENaN => ENaN
  | EInf _, EInf _ => ENaN
  | EInf s, EFin q => EInf (xorb s (Qc_neg q))
  | EFin _, EInf _ => EFin 0
  | EFin p, EFin q =>
      if Qc_eqb q 0
      then (if Qc_eqb p 0 then ENaN else EInf (Qc_neg p))
      else EFin (p / q)
  end.

Definition eeqb (x y : exact) : bool :=
  match x, y with
  | EInf s, EInf s' => Bool.eqb s s'
  | EFin p, EFin q => Qc_eqb p q
  | _, _ => false
  end.

Definition eleb (x y : exact) : bool :=
  match x, y with
  | ENaN, _ | _, ENaN => false
  | EInf s, EInf s' => s || negb s'
  | EInf s, EFin _ => s
  | EFin _, EInf s => negb s
  | EFin p, EFin q => Qc_leb p q
  end.

Definition eltb (x y : exact) : bool :=
  match x, y with
  | ENaN, _ | _, ENaN => false
  | EInf s, EInf s' => s && negb s'
  | EInf s, EFin _ => s
  | EFin _, EInf s => negb s
  | EFin p, EFin q => Qc_ltb p q
  end.

#[export] Instance exact_arith : Arith exact := {
  nan := ENaN;
  of_Z := fun z => EFin (Q2Qc (inject_Z z));
  add := eadd;
  sub := esub;
  mul := emul;
  div := ediv;
  eqb := eeqb;
  ltb := eltb;
  leb := eleb;
  isnan := fun x => match x with ENaN => true | _ => false end;
  isinf := fun x => match x with EInf _ => true | _ => false end
}.

(** A cell after clipping: missing, or a number between the bounds. *)
Definition within (a b : Qc) (e : exact) : Prop :=
  e = ENaN \/ exists c, e = EFin c /\ a <= c /\ c <= b.

End Exact.

(** ** Tables and arrays *)

(** An entry of a [pandas.DatetimeIndex]: nanoseconds since the epoch. *)
Definition timestamp : Type := Z.
Definition label : Type := String.string.

(** A two-dimensional [numpy.ndarray], row by row. *)
Definition ndarray (A : Type) : Type := list (list A).

(** A [pandas.DataFrame] with a time index. *)
Record DataFrame (A : Type) : Type := mkDataFrame {
  index : list timestamp;
  columns : list label;
  values : ndarray A
}.

Section Arrays.
Context {A B C : Type}.

Definition map2 (f : A -> B -> C) (l : list A) (l' : list B) : list C :=
  map (fun p => f (fst p) (snd p)) (combine l l').

Definition n_rows (M : ndarray A) : nat := length M.

(** Every row of [M] has [n] cells. *)
Definition rows_have (n : nat) (M : ndarray A) : bool :=
  forallb (fun r => Nat.eqb (length r) n) M.

Definition has_shape (t n : nat) (M : ndarray A) : bool :=
  Nat.eqb (n_rows M) t && rows_have n M.

Definition cell (M : ndarray A) (t l : nat) : option A :=
  match nth_error M t with
  | Some r => nth_error r l
  | None => None
  end.

Definition shape0 (X : DataFrame A) : nat := length (index X).
Definition shape1 (X : DataFrame A) : nat := length (columns X).

(** The frame invariant pandas maintains: one row of values per index
    entry, one cell per column label. *)
Definition wf_frame (X : DataFrame A) : bool :=
  has_shape (shape0 X) (shape1 X) (values X).

Definition at_ (X : DataFrame A) (t l : nat) : option A := cell (values X) t l.

End Arrays.

Definition mat_map {A B} (f : A -> B) (M : ndarray A) : ndarray B :=
  map (map f) M.

Definition mat_map2 {A B C} (f : A -> B -> C) (M : ndarray A) (N : ndarray B)
  : ndarray C :=
  map2 (map2 f) M N.

(** ** Exceptions and state *)

Inductive exn : Type :=
| AssertionError
| NotFittedError
| ValueError
| AttributeError.

Inductive outcome (R : Type) : Type :=
| Return (r : R)
| Raise (e : exn).
Arguments Return {R} r.
Arguments Raise {R} e.

(** A computation over a mutable state [S]: an exception leaves the state as
    it was when it was raised. *)
Definition M (S R : Type) : Type := S -> outcome R * S.

Definition ret {S R} (r : R) : M S R := fun s => (Return r, s).
Definition raise {S R} (e : exn) : M S R := fun s => (Raise e, s).
Definition bind {S R R'} (m : M S R) (k : R -> M S R') : M S R' :=
  fun s => match m s with
           | (Return r, s') => k r s'
           | (Raise e, s') => (Raise e, s')
           end.
Definition get {S} : M S S := fun s => (Return s, s).
Definition put {S} (s : S) : M S unit := fun _ => (Return tt, s).
Definition lift {S R} (o : outcome R) : M S R := fun s => (o, s).
Definition assert_ {S} (b : bool) : M S unit :=
  if b then ret tt else raise AssertionError.

Declare Scope py_scope.
Delimit Scope py_scope with py.
Notation "x <- m ;; k" := (bind m (fun x => k))
  (at level 61, m at next level, right associativity) : py_scope.
Notation "m ;;; k" := (bind m (fun _ => k))
  (at level 61, right associativity) : py_scope.
Open Scope py_scope.

(** ** ClearskyScalar *)

Record ClearskyScalar (A : Type) : Type := mkClearskyScalar {
  lats : list A;
  lons : list A;
  g0 : A
}.

(** The objects a method call of [ClearskyScalar] can reach: the scaler
    itself and the caller's table [X], which is passed by reference. *)
Record World (A : Type) : Type := mkWorld {
  self : ClearskyScalar A;
  X_ : DataFrame A
}.

Section Clearsky.
Context {A : Type} {AR : Arith A}.

(** Modelled from the spec: the module [clearsky] of the repository is not
    part of the sources.  [spa_python] gives the apparent solar zenith
    angle of every (timestamp, location) pair and [haurwitz] turns zenith
    angles into clear-sky GHI, elementwise; both are pure and
    deterministic.  They are taken here cell by cell. *)
Variable spa_python : timestamp -> A -> A -> A.
Variable haurwitz : A -> A.

(** [spa_python(times, lats, lons)]: an array of shape (times, location). *)
Definition apparent_zenith (times : list timestamp) (la lo : list A)
  : ndarray A :=
  map (fun t => map2 (spa_python t) la lo) times.

(** [ClearskyScalar.__init__], lines 153-157 *)
Definition ClearskyScalar_init (latitudes longitudes : list A) (g : A)
  : outcome (ClearskyScalar A) :=
  if Nat.eqb (length latitudes) (length longitudes)
  then Return (mkClearskyScalar latitudes longitudes g)
  else Raise AssertionError.

(** The GHI before the fudge factor is added. *)
Definition raw_ghi (s : ClearskyScalar A) (times : list timestamp)
  : ndarray A :=
  mat_map haurwitz (apparent_zenith times (lats s) (lons s)).

(** [haurwitz_ghi], lines 159-174 *)
Definition ClearskyScalar_haurwitz_ghi (s : ClearskyScalar A)
  (times : list timestamp) : ndarray A :=
  mat_map (fun g => add g (g0 s)) (raw_ghi s times).

(** Elementwise arithmetic of a frame with an array: pandas refuses an
    array of another shape. *)
Definition frame_op (f : A -> A -> A) (X : DataFrame A) (G : ndarray A)
  : outcome (DataFrame A) :=
  if has_shape (shape0 X) (shape1 X) G
  then Return (mkDataFrame (index X) (columns X) (mat_map2 f (values X) G))
  else Raise ValueError.

(** [DataFrame.where(cond)]: keep the cells where [cond] holds, NaN
    elsewhere. *)
Definition frame_where (X : DataFrame A) (cond : ndarray bool)
  : outcome (DataFrame A) :=
  if has_shape (shape0 X) (shape1 X) cond
  then Return (mkDataFrame (index X) (columns X)
                 (mat_map2 (fun x (c : bool) => if c then x else nan)
                    (values X) cond))
  else Raise ValueError.

Definition get_self : M (World A) (ClearskyScalar A) :=
  fun w => (Return (self w), w).
Definition get_X : M (World A) (DataFrame A) :=
  fun w => (Return (X_ w), w).
Definition set_X (X : DataFrame A) : M (World A) unit :=
  fun w => (Return tt, mkWorld (self w) X).

(** [transform], lines 176-192 *)
Definition ClearskyScalar_transform : M (World A) (DataFrame A) :=
  s <- get_self ;;
  X <- get_X ;;
  assert_ (Nat.eqb (length (lats s)) (shape1 X)) ;;;
  let GHI := ClearskyScalar_haurwitz_ghi s (index X) in
  let GHI := mat_map (fun g => if eqb g zero then nan else g) GHI in
  lift (frame_op div X GHI).

(** [inverse_transform], lines 194-209 *)
Definition ClearskyScalar_inverse_transform : M (World A) (DataFrame A) :=
  s <- get_self ;;
  X <- get_X ;;
  assert_ (Nat.eqb (length (lats s)) (shape1 X)) ;;;
  let GHI := ClearskyScalar_haurwitz_ghi s (index X) in
  lift (frame_op mul X GHI).

(** [filter_to_daylight], lines 211-232: with [inplace] the caller's table
    is overwritten and the call returns [None]. *)
Definition ClearskyScalar_filter_to_daylight (min_ghi : A) (inplace : bool)
  : M (World A) (option (DataFrame A)) :=
  s <- get_self ;;
  X <- get_X ;;
  assert_ (Nat.eqb (length (lats s)) (shape1 X)) ;;;
  let GHI := ClearskyScalar_haurwitz_ghi s (index X) in
  let cond := mat_map (fun g => gtb g (add min_ghi (g0 s))) GHI in
  Y <- lift (frame_where X cond) ;;
  if inplace then set_X Y ;;; ret None else ret (Some Y).

(** What [__init__] asserts of the two coordinate arrays. *)
Definition same_shape (s : ClearskyScalar A) : Prop :=
  length (lons s) = length (lats s).

(** The value [transform] divides by: the fudged GHI, or NaN where that
    is zero. *)
Definition divisor (g : A) : A := if eqb g zero then nan else g.

(** The table [filter_to_daylight] builds. *)
Definition daylight (m : A) (w : World A) : DataFrame A :=
  mkDataFrame (index (X_ w)) (columns (X_ w))
    (mat_map2 (fun x (c : bool) => if c then x else nan) (values (X_ w))
       (mat_map (fun g => gtb g (add m (g0 (self w))))
          (ClearskyScalar_haurwitz_ghi (self w) (index (X_ w))))).

End Clearsky.

(** ** RobustMinMaxScaler *)

(** The attributes [sklearn.preprocessing.MinMaxScaler.partial_fit] sets;
    [check_is_fitted] looks for them. *)
Record MinMaxFitted (A : Type) : Type := mkMinMaxFitted {
  n_samples_seen_ : nat;
  scale_ : list A;
  min_ : list A;
  data_min_ : list A;
  data_max_ : list A;
  data_range_ : list A
}.

Record RobustMinMaxScaler (A : Type) : Type := mkRobustMinMaxScaler {
  feature_range : A * A;
  copy : bool;
  saturation_fraction : A;
  robust_data_min : option (list A);
  robust_data_max : option (list A);
  fitted_ : option (MinMaxFitted A)
}.

Section Robust.
Context {A : Type} {AR : Arith A}.

(** [numpy.nanpercentile] of one column: the [q]-th percentile of the
    values that are not NaN. *)
Variable nanpercentile_1d : list A -> A -> A.

Local Abbreviation Scaler := (RobustMinMaxScaler A).

(** [RobustMinMaxScaler.__init__], lines 46-50 *)
Definition RobustMinMaxScaler_init (range : A * A) (fraction : A)
  (cp : bool) : Scaler :=
  mkRobustMinMaxScaler range cp fraction None None None.

Definition column (j : nat) (Xv : ndarray A) : list A :=
  flat_map (fun r => match nth_error r j with
                     | Some x => [x]
                     | None => []
                     end) Xv.

Definition columns_of (X : DataFrame A) : list (list A) :=
  map (fun j => column j (values X)) (seq 0 (shape1 X)).

(** numpy's test of a quantile, and of a percentile, which it first divides
    by 100. *)
Definition _quantile_is_valid (q : A) : bool := leb zero q && leb q one.

Definition valid_percentile (q : A) : bool :=
  _quantile_is_valid (div q hundred).

(** [np.nanpercentile(X, q, axis=0)]: one percentile per column; numpy
    refuses a percentile outside [0, 100]. *)
Definition nanpercentile (X : DataFrame A) (q : A) : outcome (list A) :=
  if valid_percentile q
  then Return (map (fun c => nanpercentile_1d c q) (columns_of X))
  else Raise ValueError.

(** [DataFrame.clip(lower, upper, axis=1)] with one bound per column: first
    the lower bounds, then the upper ones; a missing value stays missing
    and a missing bound does not clip. *)
Definition clip_lower (lo x : A) : A :=
  if isnan lo then x else if geb x lo || isnan x then x else lo.
Definition clip_upper (hi x : A) : A :=
  if isnan hi then x else if leb x hi || isnan x then x else hi.
Definition clip_cell (lo hi x : A) : A := clip_upper hi (clip_lower lo x).

Definition clipped (X : DataFrame A) (lower upper : list A) : DataFrame A :=
  mkDataFrame (index X) (columns X)
    (map (fun r => map2 (fun x b => clip_cell (fst b) (snd b) x) r
                     (combine lower upper))
       (values X)).

Definition clip (X : DataFrame A) (lower upper : list A)
  : outcome (DataFrame A) :=
  if Nat.eqb (length lower) (shape1 X) && Nat.eqb (length upper) (shape1 X)
  then Return (clipped X lower upper)
  else Raise ValueError.

(** *** The inherited [MinMaxScaler] *)

(** [check_array(X, force_all_finite="allow-nan")]: at least one sample and
    one feature, and no infinity. *)
Definition check_array (X : DataFrame A) : outcome unit :=
  if Nat.eqb (shape0 X) 0 || Nat.eqb (shape1 X) 0
     || existsb (existsb isinf) (values X)
  then Raise ValueError
  else Return tt.

Definition check_is_fitted : M Scaler (MinMaxFitted A) :=
  fun s => match fitted_ s with
           | Some f => (Return f, s)
           | None => (Raise NotFittedError, s)
           end.

Definition reduce (f : A -> A -> A) (l : list A) : A :=
  match l with
  | [] => nan
  | x :: r => fold_left f r x
  end.

(** [np.fmin], [np.fmax]: the missing value is ignored. *)
Definition fmin (x y : A) : A := if leb x y || isnan y then x else y.
Definition fmax (x y : A) : A := if geb x y || isnan y then x else y.
(** [np.minimum], [np.maximum]: the missing value wins. *)
Definition minimum (x y : A) : A := if leb x y || isnan x then x else y.
Definition maximum (x y : A) : A := if geb x y || isnan x then x else y.

(** [np.nanmin(X, axis=0)], [np.nanmax(X, axis=0)] *)
Definition nanmin (X : DataFrame A) : list A :=
  map (reduce fmin) (columns_of X).
Definition nanmax (X : DataFrame A) : list A :=
  map (reduce fmax) (columns_of X).

Definition _handle_zeros_in_scale (scale : list A) : list A :=
  map (fun r => if eqb r zero then one else r) scale.

Definition set_fitted (f : MinMaxFitted A) : M Scaler unit :=
  fun s => (Return tt,
            mkRobustMinMaxScaler (feature_range s) (copy s)
              (saturation_fraction s) (robust_data_min s)
              (robust_data_max s) (Some f)).

(** [MinMaxScaler.partial_fit] *)
Definition MinMaxScaler_partial_fit (X : DataFrame A) : M Scaler unit :=
  s <- get ;;
  let lo := fst (feature_range s) in
  let hi := snd (feature_range s) in
  if geb lo hi then raise ValueError else
  lift (check_array X) ;;;
  stats <-
    match fitted_ s with
    | None => ret (nanmin X, nanmax X, shape0 X)
    | Some f =>
        if Nat.eqb (length (scale_ f)) (shape1 X)
        then ret (map2 minimum (data_min_ f) (nanmin X),
                  map2 maximum (data_max_ f) (nanmax X),
                  n_samples_seen_ f + shape0 X)
        else raise ValueError
    end ;;
  let data_min := fst (fst stats) in
  let data_max := snd (fst stats) in
  let data_range := map2 sub data_max data_min in
  let scale := map (fun r => div (sub hi lo) r)
                 (_handle_zeros_in_scale data_range) in
  let min := map2 (fun d sc => sub lo (mul d sc)) data_min scale in
  set_fitted (mkMinMaxFitted (snd stats) scale min data_min data_max
                data_range).

(** [MinMaxScaler.transform]: [X * scale_ + min_]. *)
Definition MinMaxScaler_transform (X : DataFrame A) : M Scaler (ndarray A) :=
  f <- check_is_fitted ;;
  lift (check_array X) ;;;
  if Nat.eqb (length (scale_ f)) (shape1 X)
  then ret (map (fun r => map2 add (map2 mul r (scale_ f)) (min_ f))
              (values X))
  else raise ValueError.

(** numpy broadcasts a vector against the rows of [X] when the lengths
    agree or the vector has a single entry. *)
Definition broadcast (v : list A) (n : nat) : outcome (list A) :=
  if Nat.eqb (length v) n then Return v
  else match v with
       | [x] => Return (repeat x n)
       | _ => Raise ValueError
       end.

(** [MinMaxScaler.inverse_transform]: [(X - min_) / scale_]. *)
Definition MinMaxScaler_inverse_transform (X : DataFrame A)
  : M Scaler (ndarray A) :=
  f <- check_is_fitted ;;
  lift (check_array X) ;;;
  mn <- lift (broadcast (min_ f) (shape1 X)) ;;
  sc <- lift (broadcast (scale_ f) (shape1 X)) ;;
  ret (map (fun r => map2 div (map2 sub r mn) sc) (values X)).

Definition MinMaxScaler__reset : M Scaler unit :=
  fun s => (Return tt,
            mkRobustMinMaxScaler (feature_range s) (copy s)
              (saturation_fraction s) (robust_data_min s)
              (robust_data_max s) None).

(** *** The methods of [RobustMinMaxScaler] *)

Definition set_robust (lo hi : list A) : M Scaler unit :=
  fun s => (Return tt,
            mkRobustMinMaxScaler (feature_range s) (copy s)
              (saturation_fraction s) (Some lo) (Some hi) (fitted_ s)).

Definition attr {R} (a : Scaler -> option R) : M Scaler R :=
  fun s => match a s with
           | Some r => (Return r, s)
           | None => (Raise AttributeError, s)
           end.

(** [partial_fit], lines 52-77 *)
Definition RobustMinMaxScaler_partial_fit (X : DataFrame A)
  : M Scaler unit :=
  s <- get ;;
  let percentile_min := mul (saturation_fraction s) hundred in
  let percentile_max := mul (sub one (saturation_fraction s)) hundred in
  rmin <- lift (nanpercentile X percentile_min) ;;
  rmax <- lift (nanpercentile X percentile_max) ;;
  set_robust rmin rmax ;;;
  Xr <- lift (clip X rmin rmax) ;;
  MinMaxScaler_partial_fit Xr.

(** [fit], inherited: forget the fitted attributes, then [partial_fit]. *)
Definition MinMaxScaler_fit (X : DataFrame A) : M Scaler unit :=
  MinMaxScaler__reset ;;; RobustMinMaxScaler_partial_fit X.

(** [transform], lines 79-96 *)
Definition RobustMinMaxScaler_transform (X : DataFrame A)
  : M Scaler (DataFrame A) :=
  check_is_fitted ;;;
  rmin <- attr (@robust_data_min A) ;;
  rmax <- attr (@robust_data_max A) ;;
  Xr <- lift (clip X rmin rmax) ;;
  Xt <- MinMaxScaler_transform Xr ;;
  ret (mkDataFrame (index X) (columns X) Xt).

(** [inverse_transform], lines 98-113 *)
Definition RobustMinMaxScaler_inverse_transform (X : DataFrame A)
  : M Scaler (DataFrame A) :=
  Xt <- MinMaxScaler_inverse_transform X ;;
  ret (mkDataFrame (index X) (columns X) Xt).

(** [fit_transform], lines 115-117 *)
Definition RobustMinMaxScaler_fit_transform (X : DataFrame A)
  : M Scaler (DataFrame A) :=
  MinMaxScaler_fit X ;;; RobustMinMaxScaler_transform X.

(** *** What the properties speak about *)

(** A caller that goes on after a failed call: the scaler after a sequence
    of [partial_fit] calls. *)
Definition partial_fits (batches : list (DataFrame A)) (s : Scaler)
  : Scaler :=
  fold_left (fun s' X => snd (RobustMinMaxScaler_partial_fit X s')) batches s.

(** The two percentiles [partial_fit] asks for. *)
Definition percentile_min (s : Scaler) : A :=
  mul (saturation_fraction s) hundred.
Definition percentile_max (s : Scaler) : A :=
  mul (sub one (saturation_fraction s)) hundred.

(** The scalers a program can hold: built by [__init__] and then fitted any
    number of times, successfully or not. *)
Inductive reachable : Scaler -> Prop :=
| reach_init (range : A * A) (fraction : A) (cp : bool) :
    reachable (RobustMinMaxScaler_init range fraction cp)
| reach_partial_fit (s : Scaler) (X : DataFrame A) :
    reachable s ->
    reachable (snd (RobustMinMaxScaler_partial_fit X s))
| reach_fit (s : Scaler) (X : DataFrame A) :
    reachable s ->
    reachable (snd (MinMaxScaler_fit X s)).

(** [scale_] and [min_] have one entry per feature. *)
Definition fitted_inv (s : Scaler) : Prop :=
  match fitted_ s with
  | Some f => length (min_ f) = length (scale_ f)
  | None => True
  end.

(** Every missing cell of [X] is a missing cell of [Y]. *)
Definition nan_kept (X Y : DataFrame A) : Prop :=
  forall t l x,
    at_ X t l = Some x -> isnan x = true ->
    exists y, at_ Y t l = Some y /\ isnan y = true.

End Robust.

(** ** Instances for the examples *)

Section Samples.
Context {A : Type} {AR : Arith A}.

(** A stand-in for the clear-sky model, which the examples need to run.
    Timestamps count hundredths of a degree of solar zenith angle (the site
    is not looked at), and the Haurwitz curve
    [1098 cos z exp(-0.059 / cos z)] is sampled in three steps: nothing
    from the horizon on, [1e-30] in the last twentieth of a degree above it
    (the curve is at [4e-30] at 89.95 degrees and falls from there), and
    800 W/m2 in daylight. *)
Definition sample_spa_python (t : timestamp) (la lo : A) : A :=
  div (of_Z t) hundred.

Definition sample_haurwitz (z : A) : A :=
  if leb (of_Z 90) z then zero
  else if leb (div (of_Z 8995) hundred) z
       then div (div one (of_Z (10 ^ 15))) (of_Z (10 ^ 15))
       else of_Z 800.

(** [numpy]'s default percentile of one column: the values that are not
    NaN are sorted and the percentile is interpolated linearly between the
    two neighbours of the position [q / 100 * (n - 1)]. *)
Fixpoint insert_sorted (x : A) (l : list A) : list A :=
  match l with
  | [] => [x]
  | y :: r => if leb x y then x :: l else y :: insert_sorted x r
  end.

Definition sort_values (l : list A) : list A := fold_right insert_sorted [] l.

Definition drop_nan (l : list A) : list A :=
  filter (fun x => negb (isnan x)) l.

(** The largest [i <= n] with [i <= pos]. *)
Fixpoint floor_index (pos : A) (n : nat) : nat :=
  match n with
  | O => O
  | S k => if leb (of_Z (Z.of_nat n)) pos then n else floor_index pos k
  end.

Definition linear_percentile (col : list A) (q : A) : A :=
  let a := sort_values (drop_nan col) in
  match a with
  | [] => nan
  | x0 :: _ =>
      let n := length a in
      let pos := mul (div q hundred) (of_Z (Z.of_nat (n - 1))) in
      let i := floor_index pos (n - 1) in
      let j := Nat.min (i + 1) (n - 1) in
      let gamma := sub pos (of_Z (Z.of_nat i)) in
      let below := nth i a x0 in
      let above := nth j a x0 in
      add below (mul (sub above below) gamma)
  end.

(** A frame with default labels is enough for the examples. *)
Definition frame (times : list timestamp) (Xv : ndarray A) : DataFrame A :=
  mkDataFrame times
    (repeat String.EmptyString
       (match Xv with [] => 0 | r :: _ => length r end))
    Xv.

End Samples.

Import Binary64.
Import Exact.

(** One site, as in the scenario of the specification. *)
Definition site (fudge : float) : ClearskyScalar float :=
  mkClearskyScalar [55%float] [(-2)%float] fudge.

(** Three timestamps of the stand-in model: 120, 89.95 and 40 degrees of
    zenith angle. *)
Definition night : timestamp := 12000%Z.
Definition dawn : timestamp := 8995%Z.
Definition day : timestamp := 4000%Z.

Definition clearsky_world (fudge : float) (times : list timestamp)
  (Xv : ndarray float) : World float :=
  mkWorld (site fudge) (frame times Xv).

(** The largest power of two binary64 has. *)
Definition huge : float := 0x1p+1023%float.

Definition default_scaler : RobustMinMaxScaler float :=
  RobustMinMaxScaler_init (zero, one) (div one hundred) true.

Definition exact_world (times : list timestamp) (Xv : ndarray exact)
  : World exact :=
  mkWorld (mkClearskyScalar [of_Z 55] [of_Z (-2)] (of_Z 10)) (frame times Xv).

(** The scenario of the specification: one feature with the values 1 to
    100, saturation fraction 0.01. *)
Definition one_to_hundred : DataFrame exact :=
  frame (map Z.of_nat (seq 0 100))
    (map (fun i => [of_Z (Z.of_nat (S i))]) (seq 0 100)).

Definition exact_scaler : RobustMinMaxScaler exact :=
  RobustMinMaxScaler_init (zero, one) (div one hundred) true.

Definition fitted_scaler : RobustMinMaxScaler exact :=
  snd (MinMaxScaler_fit linear_percentile one_to_hundred exact_scaler).

Definition bound (o : option (list exact)) : Qc :=
  match o with
  | Some [EFin q] => q
  | _ => Q2Qc 0
  end.

Definition outlier : DataFrame exact := frame [day] [[of_Z 1000]].

Definition scaled_outlier : DataFrame exact :=
  match fst (RobustMinMaxScaler_transform outlier fitted_scaler) with
  | Return Y => Y
  | Raise _ => outlier
  end.

(** A batch of one column, the scaler fitted on it, and two batches that
    scaler refuses: one of two columns and one with an infinite cell. *)
Definition one_column : DataFrame float :=
  frame [night; day] [[0]; [4]]%float.

Definition two_columns : DataFrame float :=
  frame [night; day] [[1; 2]; [3; 4]]%float.

Definition unbounded : DataFrame float := frame [day] [[infinity]].

Definition fitted_on_one_column : RobustMinMaxScaler float :=
  snd (MinMaxScaler_fit linear_percentile one_column default_scaler).

(** What [fit] on 1 to 100 stored, and the scaled outlier taken back. *)
Definition fitted_attributes : MinMaxFitted exact :=
  match fitted_ fitted_scaler with
  | Some f => f
  | None => mkMinMaxFitted 0 [] [] [] [] []
  end.

Definition restored_outlier : DataFrame exact :=
  match fst (RobustMinMaxScaler_inverse_transform scaled_outlier
               fitted_scaler) with
  | Return Z => Z
  | Raise _ => outlier
  end.

(** * Properties *)

(** ** The laws of binary64 *)

Lemma SFcompare_refl (s : spec_float) :
  s <> S754_nan -> SFcompare s s = Some Eq.
Proof.
  destruct s as [[|]|[|]| |[|] m e]; simpl; intros Hs;
    try reflexivity; try congruence;
    rewrite Z.compare_refl, Pos.compare_cont_refl; reflexivity.
Qed.

Lemma is_nan_spec (x : float) :
  PrimFloat.is_nan x = true <-> Prim2SF x = S754_nan.
Proof.
  unfold PrimFloat.is_nan. rewrite eqb_spec. unfold SFeqb. split.
  - intros Hx. destruct (Prim2SF x) eqn:E; try reflexivity;
      rewrite SFcompare_refl in Hx by discriminate; discriminate.
  - intros ->. reflexivity.
Qed.

Lemma SFcompare_nan_l s : SFcompare S754_nan s = None.
Proof. reflexivity. Qed.

Lemma SFcompare_nan_r s : SFcompare s S754_nan = None.
Proof. destruct s; reflexivity. Qed.

Lemma SFcompare_antisym (x y : spec_float) :
  SFcompare y x = option_map CompOpp (SFcompare x y).
Proof.
  assert (H : forall m m',
             Pos.compare_cont Eq m' m = CompOpp (Pos.compare_cont Eq m m')).
  { intros m m'. exact (eq_sym (Pos.compare_cont_antisym m m' Eq)). }
  destruct x as [[|]|[|]| |[|] m e], y as [[|]|[|]| |[|] m' e'];
    simpl; try reflexivity;
    rewrite (Z.compare_antisym e e');
    destruct (Z.compare e e'); simpl; try reflexivity;
    rewrite (H m m'), ?CompOpp_involutive; reflexivity.
Qed.

Lemma Prim2SF_add_zero (x : float) :
  Prim2SF (PrimFloat.add x (float_of_Z 0)) = zero_fix (Prim2SF x).
Proof.
  rewrite add_spec. change (Prim2SF (float_of_Z 0)) with (S754_zero false).
  destruct (Prim2SF x) as [[|]|[|]| |[|] m e]; reflexivity.
Qed.

Lemma SFcompare_zero_fix (x y : spec_float) :
  SFcompare (zero_fix x) (zero_fix y) = SFcompare x y.
Proof.
  destruct x as [[|]|[|]| |[|] m e], y as [[|]|[|]| |[|] m' e'];
    reflexivity.
Qed.

Ltac nan_case :=
  intros x y Hx; apply is_nan_spec in Hx;
  first [ apply is_nan_spec | idtac ];
  first [ rewrite add_spec | rewrite sub_spec | rewrite mul_spec
        | rewrite div_spec | rewrite eqb_spec | rewrite ltb_spec
        | rewrite leb_spec ];
  rewrite Hx;
  unfold SF64add, SF64sub, SF64mul, SF64div, SFadd, SFsub, SFmul, SFdiv,
    SFeqb, SFltb, SFleb;
  rewrite ?SFcompare_nan_l, ?SFcompare_nan_r;
  try reflexivity;
  destruct (Prim2SF x); try reflexivity;
  destruct (Prim2SF y); reflexivity.

#[global] Instance binary64_laws : ArithLaws binary64.
Proof.
  constructor; simpl.
  - reflexivity.
  - nan_case.
  - nan_case.
  - nan_case.
  - nan_case.
  - nan_case.
  - nan_case.
  - nan_case.
  - nan_case.
  - nan_case.
  - nan_case.
  - nan_case.
  - nan_case.
  - nan_case.
  - intros x Hx. apply is_nan_spec in Hx.
    unfold PrimFloat.is_infinity. rewrite eqb_spec, abs_spec, Hx.
    reflexivity.
  - intros x y. rewrite ltb_spec, leb_spec. unfold SFltb, SFleb.
    rewrite (SFcompare_antisym (Prim2SF x) (Prim2SF y)).
    destruct (SFcompare (Prim2SF x) (Prim2SF y)) as [[| |]|];
      simpl; congruence.
  - intros x.
    change (PrimFloat.eqb (PrimFloat.add x (float_of_Z 0)) (float_of_Z 0)
            = PrimFloat.eqb x (float_of_Z 0)).
    rewrite !eqb_spec, Prim2SF_add_zero. unfold SFeqb.
    change (Prim2SF (float_of_Z 0)) with (zero_fix (S754_zero false)).
    rewrite SFcompare_zero_fix. reflexivity.
  - intros x y.
    change (PrimFloat.ltb (PrimFloat.add x (float_of_Z 0))
              (PrimFloat.add y (float_of_Z 0)) = PrimFloat.ltb x y).
    rewrite !ltb_spec, !Prim2SF_add_zero. unfold SFltb.
    rewrite SFcompare_zero_fix. reflexivity.
Qed.

(** ** The laws of exact arithmetic *)

Lemma eadd_zero (x : exact) : add x zero = x.
Proof.
  destruct x as [|s|p]; try reflexivity.
  simpl. f_equal. apply Qcplus_0_r.
Qed.

#[global] Instance exact_laws : ArithLaws exact_arith.
Proof.
  constructor;
    try (simpl; try reflexivity;
         intros [|s|p] [|s'|q] Hn; try discriminate Hn; reflexivity).
  - intros [|s|p] Hn; try discriminate Hn; reflexivity.
  - intros [|[|]|p] [|[|]|q]; simpl; try discriminate; try reflexivity.
    unfold Qc_ltb, Qc_leb. intros H. apply negb_true_iff in H. exact H.
  - intros x. rewrite eadd_zero. reflexivity.
  - intros x y. rewrite !eadd_zero. reflexivity.
Qed.

(** ** Cells of mapped and zipped arrays *)

Section ArrayFacts.
Context {A B C : Type}.

Lemma nth_error_map2 (f : A -> B -> C) (l : list A) (l' : list B) (i : nat) :
  nth_error (map2 f l l') i =
  match nth_error l i, nth_error l' i with
  | Some a, Some b => Some (f a b)
  | _, _ => None
  end.
Proof.
  unfold map2. revert l' i.
  induction l as [|a l IH]; intros [|b l'] [|i]; simpl; try reflexivity.
  - destruct (nth_error l i); reflexivity.
  - apply IH.
Qed.

Lemma length_map2 (f : A -> B -> C) (l : list A) (l' : list B) :
  length (map2 f l l') = Nat.min (length l) (length l').
Proof. unfold map2. rewrite length_map. apply length_combine. Qed.

End ArrayFacts.

Section MatrixFacts.
Context {A B C : Type}.

Lemma cell_mat_map (f : A -> B) (M : ndarray A) (t l : nat) :
  cell (mat_map f M) t l = option_map f (cell M t l).
Proof.
  unfold cell, mat_map. rewrite nth_error_map.
  destruct (nth_error M t) as [r|]; simpl; [|reflexivity].
  apply nth_error_map.
Qed.

Lemma cell_mat_map2 (f : A -> B -> C) (M : ndarray A) (N : ndarray B)
  (t l : nat) :
  cell (mat_map2 f M N) t l =
  match cell M t l, cell N t l with
  | Some a, Some b => Some (f a b)
  | _, _ => None
  end.
Proof.
  unfold cell, mat_map2. rewrite nth_error_map2.
  destruct (nth_error M t) as [r|]; [|reflexivity].
  destruct (nth_error N t) as [r'|].
  - apply nth_error_map2.
  - destruct (nth_error r l); reflexivity.
Qed.

Lemma rows_have_map (f : A -> B) (n : nat) (M : ndarray A) :
  rows_have n (mat_map f M) = rows_have n M.
Proof.
  unfold rows_have, mat_map. induction M as [|r M IH]; simpl; [reflexivity|].
  rewrite length_map, IH. reflexivity.
Qed.

Lemma has_shape_map (f : A -> B) (t n : nat) (M : ndarray A) :
  has_shape t n (mat_map f M) = has_shape t n M.
Proof.
  unfold has_shape, n_rows. rewrite rows_have_map.
  unfold mat_map. rewrite length_map. reflexivity.
Qed.

Lemma has_shape_cell (t n : nat) (M : ndarray A) (i j : nat) :
  has_shape t n M = true -> i < t -> j < n -> exists x, cell M i j = Some x.
Proof.
  unfold has_shape, n_rows, rows_have, cell. intros H Hi Hj.
  apply andb_true_iff in H. destruct H as [Hl Hr].
  apply Nat.eqb_eq in Hl. subst t.
  destruct (nth_error M i) as [r|] eqn:Er.
  - rewrite forallb_forall in Hr.
    assert (Hlen : length r = n).
    { apply Nat.eqb_eq, Hr. eapply nth_error_In; eassumption. }
    destruct (nth_error r j) as [x|] eqn:Ex; [eauto|].
    apply nth_error_None in Ex. lia.
  - apply nth_error_None in Er. lia.
Qed.

Lemma cell_has_shape (t n : nat) (M : ndarray A) (i j : nat) (x : A) :
  has_shape t n M = true -> cell M i j = Some x -> i < t /\ j < n.
Proof.
  unfold has_shape, n_rows, rows_have, cell. intros H Hc.
  apply andb_true_iff in H. destruct H as [Hl Hr].
  apply Nat.eqb_eq in Hl. subst t.
  destruct (nth_error M i) as [r|] eqn:Er; [|discriminate].
  split.
  - apply nth_error_Some. congruence.
  - rewrite forallb_forall in Hr.
    assert (Hlen : length r = n).
    { apply Nat.eqb_eq, Hr. eapply nth_error_In; eassumption. }
    rewrite <- Hlen. apply nth_error_Some. congruence.
Qed.

End MatrixFacts.

(** ** Properties of ClearskyScalar *)

Section ClearskyFacts.
Context {A : Type} {AR : Arith A}.
Variable spa_python : timestamp -> A -> A -> A.
Variable haurwitz : A -> A.

Local Abbreviation raw := (raw_ghi spa_python haurwitz).
Local Abbreviation ghi := (ClearskyScalar_haurwitz_ghi spa_python haurwitz).

Lemma init_same_shape (la lo : list A) (g : A) (s : ClearskyScalar A) :
  ClearskyScalar_init la lo g = Return s -> same_shape s.
Proof.
  unfold ClearskyScalar_init, same_shape.
  destruct (Nat.eqb (length la) (length lo)) eqn:E; [|discriminate].
  intros H. injection H as <-. simpl. apply Nat.eqb_eq in E. lia.
Qed.

Lemma raw_ghi_shape (s : ClearskyScalar A) (times : list timestamp) :
  same_shape s ->
  has_shape (length times) (length (lats s)) (raw s times) = true.
Proof.
  unfold same_shape, raw_ghi, apparent_zenith. intros Hs.
  rewrite has_shape_map. unfold has_shape, n_rows, rows_have.
  rewrite length_map, Nat.eqb_refl. simpl.
  apply forallb_forall. intros r Hr. apply in_map_iff in Hr.
  destruct Hr as [t [<- _]]. rewrite length_map2, Hs, Nat.min_id.
  apply Nat.eqb_refl.
Qed.

Lemma ghi_shape (s : ClearskyScalar A) (times : list timestamp) :
  same_shape s ->
  has_shape (length times) (length (lats s)) (ghi s times) = true.
Proof.
  intros Hs. unfold ClearskyScalar_haurwitz_ghi.
  rewrite has_shape_map. apply raw_ghi_shape, Hs.
Qed.

Lemma transform_returns (w : World A) :
  same_shape (self w) ->
  length (lats (self w)) = shape1 (X_ w) ->
  ClearskyScalar_transform spa_python haurwitz w =
  (Return (mkDataFrame (index (X_ w)) (columns (X_ w))
             (mat_map2 div (values (X_ w))
                (mat_map divisor (ghi (self w) (index (X_ w)))))), w).
Proof.
  intros Hs Hl. unfold ClearskyScalar_transform, bind, get_self, get_X,
    assert_, lift, frame_op, ret.
  rewrite Hl, Nat.eqb_refl, has_shape_map. unfold shape0.
  rewrite <- Hl, (ghi_shape _ Hs). reflexivity.
Qed.

Lemma inverse_transform_returns (w : World A) :
  same_shape (self w) ->
  length (lats (self w)) = shape1 (X_ w) ->
  ClearskyScalar_inverse_transform spa_python haurwitz w =
  (Return (mkDataFrame (index (X_ w)) (columns (X_ w))
             (mat_map2 mul (values (X_ w)) (ghi (self w) (index (X_ w))))),
   w).
Proof.
  intros Hs Hl. unfold ClearskyScalar_inverse_transform, bind, get_self,
    get_X, assert_, lift, frame_op, ret.
  rewrite Hl, Nat.eqb_refl. unfold shape0.
  rewrite <- Hl, (ghi_shape _ Hs). reflexivity.
Qed.

Lemma filter_to_daylight_returns (m : A) (inplace : bool) (w : World A) :
  same_shape (self w) ->
  length (lats (self w)) = shape1 (X_ w) ->
  ClearskyScalar_filter_to_daylight spa_python haurwitz m inplace w =
  if inplace
  then (Return None, mkWorld (self w) (daylight spa_python haurwitz m w))
  else (Return (Some (daylight spa_python haurwitz m w)), w).
Proof.
  intros Hs Hl. unfold ClearskyScalar_filter_to_daylight, bind, get_self,
    get_X, assert_, lift, frame_where, ret, set_X.
  rewrite Hl, Nat.eqb_refl, has_shape_map. unfold shape0.
  rewrite <- Hl, (ghi_shape _ Hs). destruct inplace; reflexivity.
Qed.

Lemma cell_ghi (s : ClearskyScalar A) (times : list timestamp) (t l : nat) :
  cell (ghi s times) t l =
  option_map (fun g => add g (g0 s)) (cell (raw s times) t l).
Proof. apply cell_mat_map. Qed.

Lemma transform_cell (w : World A) (t l : nat) (x g : A) :
  at_ (X_ w) t l = Some x ->
  cell (raw (self w) (index (X_ w))) t l = Some g ->
  cell (mat_map2 div (values (X_ w))
          (mat_map divisor (ghi (self w) (index (X_ w))))) t l
  = Some (div x (divisor (add g (g0 (self w))))).
Proof.
  unfold at_. intros Hx Hg.
  rewrite cell_mat_map2, Hx, cell_mat_map, cell_ghi, Hg. reflexivity.
Qed.

Lemma daylight_cell (m : A) (w : World A) (t l : nat) (x g : A) :
  at_ (X_ w) t l = Some x ->
  cell (raw (self w) (index (X_ w))) t l = Some g ->
  at_ (daylight spa_python haurwitz m w) t l
  = Some (if gtb (add g (g0 (self w))) (add m (g0 (self w))) then x else nan).
Proof.
  unfold at_, daylight. simpl. intros Hx Hg.
  rewrite cell_mat_map2, Hx, cell_mat_map, cell_ghi, Hg. reflexivity.
Qed.

End ClearskyFacts.

Section ClearskyClaims.
Context {A : Type} {AR : Arith A} {AL : ArithLaws AR}.
Variable spa_python : timestamp -> A -> A -> A.
Variable haurwitz : A -> A.

Local Abbreviation raw := (raw_ghi spa_python haurwitz).
Local Abbreviation ghi := (ClearskyScalar_haurwitz_ghi spa_python haurwitz).
Local Abbreviation transform := (ClearskyScalar_transform spa_python haurwitz).
Local Abbreviation inverse_transform :=
  (ClearskyScalar_inverse_transform spa_python haurwitz).
Local Abbreviation filter_to_daylight :=
  (ClearskyScalar_filter_to_daylight spa_python haurwitz).

(** C1, as the code has it: [transform] returns NaN at every cell whose
    fudged GHI, the raw GHI plus [g0] as [haurwitz_ghi] returns it, compares
    equal to zero, whatever [X] holds there.  The raw GHI itself is not
    looked at. *)
Theorem transform_nan_where_fudged_ghi_is_zero
  (w : World A) (t l : nat) (x g : A) :
  same_shape (self w) ->
  length (lats (self w)) = shape1 (X_ w) ->
  at_ (X_ w) t l = Some x ->
  cell (raw (self w) (index (X_ w))) t l = Some g ->
  eqb (add g (g0 (self w))) zero = true ->
  exists Y y,
    transform w = (Return Y, w) /\ at_ Y t l = Some y /\ isnan y = true.
Proof.
  intros Hs Hl Hx Hg Hz. rewrite (transform_returns _ _ _ Hs Hl).
  eexists. exists (div x nan). split; [reflexivity|]. split.
  - unfold at_. simpl. rewrite (transform_cell _ _ _ _ _ Hx Hg).
    unfold divisor. rewrite Hz. reflexivity.
  - apply div_nan_r, isnan_nan.
Qed.

(** Without fudge factor these are the cells whose raw GHI is zero. *)
Lemma transform_nan_where_raw_ghi_is_zero
  (w : World A) (t l : nat) (x g : A) :
  same_shape (self w) ->
  length (lats (self w)) = shape1 (X_ w) ->
  g0 (self w) = zero ->
  at_ (X_ w) t l = Some x ->
  cell (raw (self w) (index (X_ w))) t l = Some g ->
  eqb g zero = true ->
  exists Y y,
    transform w = (Return Y, w) /\ at_ Y t l = Some y /\ isnan y = true.
Proof.
  intros Hs Hl H0 Hx Hg Hz. rewrite (transform_returns _ _ _ Hs Hl).
  eexists. exists (div x nan). split; [reflexivity|]. split.
  - unfold at_. simpl. rewrite (transform_cell _ _ _ _ _ Hx Hg).
    unfold divisor. rewrite H0, add_zero_eqb, Hz. reflexivity.
  - apply div_nan_r, isnan_nan.
Qed.


(** Without fudge factor the comparison is the one of the raw GHI with the
    threshold. *)
Lemma filter_to_daylight_without_fudge (w : World A) (m : A) :
  same_shape (self w) ->
  length (lats (self w)) = shape1 (X_ w) ->
  g0 (self w) = zero ->
  exists Y,
    filter_to_daylight m false w = (Return (Some Y), w) /\
    forall t l x g,
      at_ (X_ w) t l = Some x ->
      cell (raw (self w) (index (X_ w))) t l = Some g ->
      at_ Y t l = Some (if gtb g m then x else nan).
Proof.
  intros Hs Hl H0. exists (daylight spa_python haurwitz m w).
  rewrite (filter_to_daylight_returns _ _ m false _ Hs Hl).
  split; [reflexivity|]. intros t l x g Hx Hg.
  rewrite (daylight_cell spa_python haurwitz m w _ _ Hx Hg), H0. unfold gtb.
  rewrite add_zero_ltb. reflexivity.
Qed.

(** C7: when the number of columns of [X] is not the number of locations,
    [transform], [inverse_transform] and [filter_to_daylight] raise the
    assertion error of their first line and nothing else happens: no table
    is returned and, also in place, [X] is left alone. *)
Theorem column_count_mismatch_raises (w : World A) (m : A) (inplace : bool) :
  length (lats (self w)) <> shape1 (X_ w) ->
  transform w = (Raise AssertionError, w) /\
  inverse_transform w = (Raise AssertionError, w) /\
  filter_to_daylight m inplace w = (Raise AssertionError, w).
Proof.
  intros Hl. apply Nat.eqb_neq in Hl.
  unfold ClearskyScalar_transform, ClearskyScalar_inverse_transform,
    ClearskyScalar_filter_to_daylight, bind, get_self, get_X, assert_, raise.
  rewrite Hl. repeat split.
Qed.

(** C9: [filter_to_daylight] in place leaves in [X] the very table the
    copying call returns, so the two agree at every cell, masked or not,
    and that table has the index and the columns of [X]. *)
Theorem filter_to_daylight_inplace_agrees (w : World A) (m : A) :
  same_shape (self w) ->
  length (lats (self w)) = shape1 (X_ w) ->
  exists Y,
    filter_to_daylight m false w = (Return (Some Y), w) /\
    filter_to_daylight m true w = (Return None, mkWorld (self w) Y) /\
    index Y = index (X_ w) /\
    columns Y = columns (X_ w).
Proof.
  intros Hs Hl. exists (daylight spa_python haurwitz m w).
  rewrite (filter_to_daylight_returns _ _ m false _ Hs Hl),
    (filter_to_daylight_returns _ _ m true _ Hs Hl).
  repeat split.
Qed.

(** C10: [transform], [inverse_transform] and [filter_to_daylight] without
    [inplace] leave the caller's table and the scaler as they were, whether
    they return or raise; in place, [filter_to_daylight] still leaves the
    scaler as it was. *)
Theorem clearsky_methods_leave_their_arguments (w : World A) (m : A) :
  snd (transform w) = w /\
  snd (inverse_transform w) = w /\
  snd (filter_to_daylight m false w) = w /\
  self (snd (filter_to_daylight m true w)) = self w.
Proof.
  unfold ClearskyScalar_transform, ClearskyScalar_inverse_transform,
    ClearskyScalar_filter_to_daylight, bind, get_self, get_X, assert_, lift,
    ret, raise, set_X.
  destruct (Nat.eqb (length (lats (self w))) (shape1 (X_ w)));
    simpl; [|repeat split].
  unfold frame_op, frame_where.
  repeat match goal with
         | |- context [if ?b then _ else _] => destruct b
         end; repeat split.
Qed.

End ClearskyClaims.

(** ** Properties of RobustMinMaxScaler *)

Section RobustFacts.
Context {A : Type} {AR : Arith A}.
Variable nanpercentile_1d : list A -> A -> A.

Local Abbreviation Scaler := (RobustMinMaxScaler A).
Local Abbreviation partial_fit :=
  (RobustMinMaxScaler_partial_fit nanpercentile_1d).
Local Abbreviation fits := (partial_fits nanpercentile_1d).

Lemma length_columns_of (X : DataFrame A) :
  length (columns_of X) = shape1 X.
Proof. unfold columns_of. rewrite length_map, length_seq. reflexivity. Qed.

Lemma MinMaxScaler_partial_fit_keeps (X : DataFrame A) (s : Scaler) :
  let s' := snd (MinMaxScaler_partial_fit X s) in
  feature_range s' = feature_range s /\
  saturation_fraction s' = saturation_fraction s /\
  robust_data_min s' = robust_data_min s /\
  robust_data_max s' = robust_data_max s.
Proof.
  unfold MinMaxScaler_partial_fit, bind, get, lift, raise, ret, set_fitted.
  destruct (geb _ _); simpl; [repeat split|].
  destruct (check_array X); simpl; [|repeat split].
  destruct (fitted_ s) as [f|]; simpl; [|repeat split].
  destruct (Nat.eqb _ _); simpl; repeat split.
Qed.

Lemma partial_fit_sets_bounds (X : DataFrame A) (s : Scaler) :
  valid_percentile (percentile_min s) = true ->
  valid_percentile (percentile_max s) = true ->
  let s' := snd (partial_fit X s) in
  saturation_fraction s' = saturation_fraction s /\
  robust_data_min s' =
    Some (map (fun c => nanpercentile_1d c (percentile_min s))
            (columns_of X)) /\
  robust_data_max s' =
    Some (map (fun c => nanpercentile_1d c (percentile_max s))
            (columns_of X)).
Proof.
  unfold percentile_min, percentile_max. intros Hmin Hmax.
  unfold RobustMinMaxScaler_partial_fit, bind, get, lift, nanpercentile,
    set_robust, clip.
  rewrite Hmin, Hmax. simpl.
  rewrite !length_map, length_columns_of, Nat.eqb_refl. simpl.
  match goal with
  | |- context [MinMaxScaler_partial_fit ?Y ?u] =>
      destruct (MinMaxScaler_partial_fit_keeps Y u) as (_ & H2 & H3 & H4)
  end.
  rewrite H2, H3, H4. repeat split.
Qed.

Lemma partial_fit_keeps_fraction (X : DataFrame A) (s : Scaler) :
  saturation_fraction (snd (partial_fit X s)) = saturation_fraction s.
Proof.
  unfold RobustMinMaxScaler_partial_fit, bind, get, lift, set_robust.
  destruct (nanpercentile _ X _); simpl; [|reflexivity].
  destruct (nanpercentile _ X _); simpl; [|reflexivity].
  destruct (clip X _ _); simpl; [|reflexivity].
  match goal with
  | |- context [MinMaxScaler_partial_fit ?Y ?u] =>
      destruct (MinMaxScaler_partial_fit_keeps Y u) as (_ & H2 & _)
  end.
  rewrite H2. reflexivity.
Qed.

Lemma partial_fits_keep_fraction (batches : list (DataFrame A)) (s : Scaler) :
  saturation_fraction (fits batches s) = saturation_fraction s.
Proof.
  unfold partial_fits. revert s.
  induction batches as [|X batches IH]; intros s; simpl; [reflexivity|].
  rewrite IH. apply partial_fit_keeps_fraction.
Qed.

(** C5: after any sequence of [partial_fit] calls the stored robust bounds
    are the two percentiles of the columns of the last batch; the batches
    before it have no part in them.  The saturation fraction is one numpy
    accepts, that is, both percentiles lie in [0, 100]. *)
Theorem robust_bounds_are_those_of_the_last_batch
  (s0 : Scaler) (batches : list (DataFrame A)) (Xn : DataFrame A) :
  valid_percentile (percentile_min s0) = true ->
  valid_percentile (percentile_max s0) = true ->
  let s := fits (batches ++ [Xn]) s0 in
  robust_data_min s =
    Some (map (fun c => nanpercentile_1d c (percentile_min s0))
            (columns_of Xn)) /\
  robust_data_max s =
    Some (map (fun c => nanpercentile_1d c (percentile_max s0))
            (columns_of Xn)).
Proof.
  intros Hmin Hmax. unfold partial_fits. rewrite fold_left_app. simpl.
  fold (fits batches s0).
  pose proof (partial_fits_keep_fraction batches s0) as Hsf.
  assert (Hpmin : percentile_min (fits batches s0) = percentile_min s0)
    by (unfold percentile_min; rewrite Hsf; reflexivity).
  assert (Hpmax : percentile_max (fits batches s0) = percentile_max s0)
    by (unfold percentile_max; rewrite Hsf; reflexivity).
  destruct (partial_fit_sets_bounds Xn (fits batches s0))
    as (_ & H1 & H2); rewrite ?Hpmin, ?Hpmax; try assumption.
  rewrite Hpmin in H1. rewrite Hpmax in H2. split; assumption.
Qed.

(** C8: on a scaler fresh from [__init__], [transform] and
    [inverse_transform] raise [NotFittedError] and return nothing. *)
Theorem unfitted_scaler_raises_not_fitted
  (range : A * A) (fraction : A) (cp : bool) (X : DataFrame A) :
  let s := RobustMinMaxScaler_init range fraction cp in
  RobustMinMaxScaler_transform X s = (Raise NotFittedError, s) /\
  RobustMinMaxScaler_inverse_transform X s = (Raise NotFittedError, s).
Proof. split; reflexivity. Qed.

End RobustFacts.

(** ** Missing values *)

Section Reachable.
Context {A : Type} {AR : Arith A}.
Variable nanpercentile_1d : list A -> A -> A.

Lemma MinMaxScaler_partial_fit_inv (X : DataFrame A)
  (s : RobustMinMaxScaler A) :
  fitted_inv s -> fitted_inv (snd (MinMaxScaler_partial_fit X s)).
Proof.
  intros Hs.
  unfold MinMaxScaler_partial_fit, bind, get, lift, raise, ret, set_fitted.
  destruct (geb _ _); simpl; [exact Hs|].
  destruct (check_array X); simpl; [|exact Hs].
  assert (Hlen : forall dmin dmax : list A,
    length (map2 (fun d sc => sub (fst (feature_range s)) (mul d sc)) dmin
              (map (fun r => div (sub (snd (feature_range s))
                                    (fst (feature_range s))) r)
                 (_handle_zeros_in_scale (map2 sub dmax dmin)))) =
    length (map (fun r => div (sub (snd (feature_range s))
                                 (fst (feature_range s))) r)
              (_handle_zeros_in_scale (map2 sub dmax dmin)))).
  { intros dmin dmax. unfold _handle_zeros_in_scale.
    rewrite length_map2, !length_map, length_map2. lia. }
  destruct (fitted_ s) as [f|] eqn:Ef; simpl.
  - destruct (Nat.eqb _ _); simpl.
    + unfold fitted_inv. simpl. apply Hlen.
    + exact Hs.
  - unfold fitted_inv. simpl. apply Hlen.
Qed.

Lemma partial_fit_inv (X : DataFrame A) (s : RobustMinMaxScaler A) :
  fitted_inv s ->
  fitted_inv (snd (RobustMinMaxScaler_partial_fit nanpercentile_1d X s)).
Proof.
  intros Hs. unfold RobustMinMaxScaler_partial_fit, bind, get, lift,
    set_robust.
  destruct (nanpercentile _ X _); simpl; [|exact Hs].
  destruct (nanpercentile _ X _); simpl; [|exact Hs].
  destruct (clip X _ _); simpl; [|exact Hs].
  apply MinMaxScaler_partial_fit_inv. exact Hs.
Qed.

Lemma reachable_inv (s : RobustMinMaxScaler A) :
  reachable nanpercentile_1d s -> fitted_inv s.
Proof.
  induction 1 as [range fraction cp|s X _ IH|s X _ IH].
  - exact I.
  - apply partial_fit_inv, IH.
  - unfold MinMaxScaler_fit, bind, MinMaxScaler__reset.
    match goal with
    | |- context [RobustMinMaxScaler_partial_fit _ X ?u] =>
        pose proof (partial_fit_inv X u I) as H;
        destruct (RobustMinMaxScaler_partial_fit nanpercentile_1d X u)
          as [[r|e] s']; exact H
    end.
Qed.

End Reachable.

Section MissingValues.
Context {A : Type} {AR : Arith A} {AL : ArithLaws AR}.
Variable spa_python : timestamp -> A -> A -> A.
Variable haurwitz : A -> A.
Variable nanpercentile_1d : list A -> A -> A.

Lemma clip_cell_nan (lo hi x : A) : isnan x = true -> clip_cell lo hi x = x.
Proof.
  intros Hx. unfold clip_cell, clip_upper, clip_lower.
  destruct (isnan lo); destruct (isnan hi); rewrite ?Hx, ?orb_true_r;
    try reflexivity; rewrite Hx, orb_true_r; reflexivity.
Qed.

Lemma frame_op_nan_kept (f : A -> A -> A) (X Y : DataFrame A) (G : ndarray A) :
  (forall x g, isnan x = true -> isnan (f x g) = true) ->
  wf_frame X = true ->
  frame_op f X G = Return Y -> nan_kept X Y.
Proof.
  intros Hf Hwf. unfold frame_op.
  destruct (has_shape (shape0 X) (shape1 X) G) eqn:HG; [|discriminate].
  intros HY. injection HY as <-. intros t l x Hx Hn.
  unfold at_ in *. simpl. rewrite cell_mat_map2, Hx.
  destruct (cell_has_shape _ _ _ _ _ Hwf Hx) as [Ht Hl].
  destruct (has_shape_cell G HG Ht Hl) as [g Hg]. rewrite Hg.
  eexists. split; [reflexivity|]. apply Hf, Hn.
Qed.

Lemma transform_nan_kept (w : World A) (Y : DataFrame A) :
  wf_frame (X_ w) = true ->
  fst (ClearskyScalar_transform spa_python haurwitz w) = Return Y ->
  nan_kept (X_ w) Y.
Proof.
  intros Hwf. unfold ClearskyScalar_transform, bind, get_self, get_X, assert_,
    lift, raise, ret.
  destruct (Nat.eqb _ _); simpl; [|discriminate].
  apply frame_op_nan_kept; [|exact Hwf]. intros x g. apply div_nan_l.
Qed.

Lemma inverse_transform_nan_kept (w : World A) (Y : DataFrame A) :
  wf_frame (X_ w) = true ->
  fst (ClearskyScalar_inverse_transform spa_python haurwitz w) = Return Y ->
  nan_kept (X_ w) Y.
Proof.
  intros Hwf. unfold ClearskyScalar_inverse_transform, bind, get_self, get_X,
    assert_, lift, raise, ret.
  destruct (Nat.eqb _ _); simpl; [|discriminate].
  apply frame_op_nan_kept; [|exact Hwf]. intros x g. apply mul_nan_l.
Qed.

Lemma row_cell (f : list A -> list A) (Xv : ndarray A) (t l : nat) :
  cell (map f Xv) t l =
  match nth_error Xv t with
  | Some r => nth_error (f r) l
  | None => None
  end.
Proof.
  unfold cell. rewrite nth_error_map.
  destruct (nth_error Xv t); reflexivity.
Qed.

Lemma nth_error_lt {T : Type} (v : list T) (l : nat) :
  l < length v -> exists x, nth_error v l = Some x.
Proof.
  intros Hl. destruct (nth_error v l) eqn:E; [eauto|].
  apply nth_error_None in E. lia.
Qed.

Lemma scaler_transform_nan_kept
  (s : RobustMinMaxScaler A) (X Y : DataFrame A) :
  wf_frame X = true ->
  fitted_inv s ->
  fst (RobustMinMaxScaler_transform X s) = Return Y ->
  nan_kept X Y.
Proof.
  intros Hwf Hinv.
  unfold RobustMinMaxScaler_transform, MinMaxScaler_transform, bind,
    check_is_fitted, attr, lift, ret, raise, clip.
  unfold fitted_inv in Hinv.
  destruct (fitted_ s) as [f|] eqn:Ef; simpl; [|discriminate].
  destruct (robust_data_min s) as [rmin|]; simpl; [|discriminate].
  destruct (robust_data_max s) as [rmax|]; simpl; [|discriminate].
  destruct (Nat.eqb (length rmin) (shape1 X)) eqn:E1; simpl; [|discriminate].
  destruct (Nat.eqb (length rmax) (shape1 X)) eqn:E2; simpl; [|discriminate].
  rewrite Ef. destruct (check_array _); simpl; [|discriminate].
  unfold shape1 at 1. simpl. fold (shape1 X).
  destruct (Nat.eqb (length (scale_ f)) (shape1 X)) eqn:E3; simpl;
    [|discriminate].
  apply Nat.eqb_eq in E1, E2, E3.
  intros HY. injection HY as <-. intros t l x Hx Hn.
  destruct (cell_has_shape _ _ _ _ _ Hwf Hx) as [Ht Hl].
  unfold at_ in *. simpl. rewrite row_cell, nth_error_map.
  unfold cell in Hx.
  destruct (nth_error (values X) t) as [row|]; [|discriminate].
  simpl. rewrite !nth_error_map2, Hx.
  destruct (@nth_error_lt _ (combine rmin rmax) l) as [b Hb].
  { rewrite length_combine. lia. }
  destruct (@nth_error_lt _ (scale_ f) l) as [sc Hsc]; [lia|].
  destruct (@nth_error_lt _ (min_ f) l) as [mn Hmn]; [lia|].
  rewrite Hb, Hsc, Hmn. eexists. split; [reflexivity|].
  apply add_nan_l, mul_nan_l. rewrite clip_cell_nan; assumption.
Qed.

Lemma length_broadcast (v v' : list A) (n : nat) :
  broadcast v n = Return v' -> length v' = n.
Proof.
  unfold broadcast. destruct (Nat.eqb (length v) n) eqn:E.
  - intros H. injection H as <-. apply Nat.eqb_eq, E.
  - destruct v as [|x [|y v]]; try discriminate.
    intros H. injection H as <-. apply repeat_length.
Qed.

Lemma scaler_inverse_transform_nan_kept
  (s : RobustMinMaxScaler A) (X Y : DataFrame A) :
  wf_frame X = true ->
  fst (RobustMinMaxScaler_inverse_transform X s) = Return Y ->
  nan_kept X Y.
Proof.
  intros Hwf.
  unfold RobustMinMaxScaler_inverse_transform, MinMaxScaler_inverse_transform,
    bind, check_is_fitted, lift, ret.
  destruct (fitted_ s) as [f|]; simpl; [|discriminate].
  destruct (check_array X); simpl; [|discriminate].
  destruct (broadcast (min_ f) _) as [mn|] eqn:Emn; simpl; [|discriminate].
  destruct (broadcast (scale_ f) _) as [sc|] eqn:Esc; simpl; [|discriminate].
  apply length_broadcast in Emn, Esc.
  intros HY. injection HY as <-. intros t l x Hx Hn.
  destruct (cell_has_shape _ _ _ _ _ Hwf Hx) as [Ht Hl].
  unfold at_ in *. simpl. rewrite row_cell.
  unfold cell in Hx.
  destruct (nth_error (values X) t) as [row|]; [|discriminate].
  rewrite !nth_error_map2, Hx.
  destruct (@nth_error_lt _ mn l) as [m Hm]; [lia|].
  destruct (@nth_error_lt _ sc l) as [c Hc]; [lia|].
  rewrite Hm, Hc. eexists. split; [reflexivity|].
  apply div_nan_l, sub_nan_l, Hn.
Qed.


End MissingValues.

(** ** The round trip through [transform] and [inverse_transform] *)

Section RoundTrip.
Context {A : Type} {AR : Arith A}.
Variable spa_python : timestamp -> A -> A -> A.
Variable haurwitz : A -> A.

(** In any arithmetic: both calls compute the GHI of the same timestamps, so
    a cell [x] comes back as [(x / g) * g] for one and the same [g]. *)
Lemma roundtrip_cell (w : World A) (t l : nat) (x g : A) :
  same_shape (self w) ->
  length (lats (self w)) = shape1 (X_ w) ->
  at_ (X_ w) t l = Some x ->
  cell (ClearskyScalar_haurwitz_ghi spa_python haurwitz (self w)
          (index (X_ w))) t l = Some g ->
  exists Y Z,
    ClearskyScalar_transform spa_python haurwitz w = (Return Y, w) /\
    ClearskyScalar_inverse_transform spa_python haurwitz (mkWorld (self w) Y)
      = (Return Z, mkWorld (self w) Y) /\
    index Z = index (X_ w) /\
    columns Z = columns (X_ w) /\
    at_ Z t l = Some (mul (div x (divisor g)) g).
Proof.
  intros Hs Hl Hx Hg. do 2 eexists.
  split; [apply (transform_returns _ _ _ Hs Hl)|].
  split; [apply inverse_transform_returns; [exact Hs|exact Hl]|].
  simpl. repeat split.
  unfold at_ in *. simpl.
  rewrite !cell_mat_map2, Hx, cell_mat_map, Hg. reflexivity.
Qed.

End RoundTrip.

(** ** Exact arithmetic *)

Section ExactFacts.
Import Exact.
Local Open Scope Qc_scope.

Lemma Qc_eqb_false (p q : Qc) : Qc_eqb p q = false -> p <> q.
Proof.
  unfold Qc_eqb. intros H E. subst q.
  rewrite (proj2 (Qeq_bool_iff p p)) in H; [discriminate|reflexivity].
Qed.

Lemma Qc_eqb_true (p q : Qc) : Qc_eqb p q = true -> p = q.
Proof. unfold Qc_eqb. intros H. apply Qc_is_canon, Qeq_bool_iff, H. Qed.

Lemma Qc_leb_le (p q : Qc) : Qc_leb p q = true <-> p <= q.
Proof. unfold Qc_leb, Qcle. apply Qle_bool_iff. Qed.

Lemma Qc_ltb_lt (p q : Qc) : Qc_ltb p q = true <-> p < q.
Proof.
  unfold Qc_ltb, Qclt. rewrite negb_true_iff. split.
  - intros H. apply Qnot_le_lt. intros Hle.
    apply Qle_bool_iff in Hle. congruence.
  - intros H. destruct (Qle_bool q p) eqn:E; [|reflexivity].
    apply Qle_bool_iff in E. exfalso. eapply Qlt_not_le; eassumption.
Qed.

Lemma mul_div_cancel (x g : exact) :
  isnan x = false -> isnan g = false -> isinf g = false ->
  eqb g zero = false ->
  mul (div x (divisor g)) g = x.
Proof.
  unfold divisor. intros Hx Hg Hi Hz. rewrite Hz.
  destruct g as [|s|q]; try discriminate.
  simpl in Hz. apply Qc_eqb_false in Hz.
  assert (Hq : Qc_eqb q 0 = false).
  { destruct (Qc_eqb q 0) eqn:E; [|reflexivity].
    apply Qc_eqb_true in E. contradiction. }
  destruct x as [|s|p]; try discriminate; simpl.
  - rewrite Hq, xorb_assoc, xorb_nilpotent, xorb_false_r. reflexivity.
  - rewrite Hq. simpl. f_equal. rewrite Qcmult_comm.
    apply Qcmult_div_r. exact Hz.
Qed.

End ExactFacts.

Section ExactScaling.
Import Exact.
Local Open Scope Qc_scope.

Lemma Qc_leb_false (p q : Qc) : Qc_leb p q = false -> q < p.
Proof.
  intros H. apply Qcnot_le_lt. intros Hle. apply Qc_leb_le in Hle. congruence.
Qed.

(** The affine map of [MinMaxScaler] on a value [c] between the bounds
    [a < b] it was fitted on. *)
Lemma affine_map_bounds (lo hi a b c : Qc) :
  a < b -> lo < hi -> a <= c -> c <= b ->
  let k := (hi + - lo) / (b + - a) in
  let y := c * k + (lo + - (a * k)) in
  lo <= y /\ y <= hi /\ (c = a -> y = lo) /\ (c = b -> y = hi).
Proof.
  intros Hab Hlh Hac Hcb k y.
  assert (Hd : 0 < b + - a) by (apply Qclt_minus_iff in Hab; exact Hab).
  assert (Hd0 : b + - a <> 0).
  { intros E. rewrite E in Hd. exact (Qclt_not_eq _ _ Hd eq_refl). }
  assert (Hr : 0 <= hi + - lo).
  { apply Qclt_le_weak. apply Qclt_minus_iff in Hlh. exact Hlh. }
  assert (Hyd : y * (b + - a) = lo * (b + - a) + (c + - a) * (hi + - lo)).
  { unfold y, k. field. exact Hd0. }
  assert (Hyd' : y * (b + - a) + (b + - c) * (hi + - lo) = hi * (b + - a)).
  { unfold y, k. field. exact Hd0. }
  repeat split.
  - apply Qcmult_lt_0_le_reg_r with (z := b + - a); [exact Hd|].
    rewrite Hyd. apply Qcle_minus_iff.
    replace (lo * (b + - a) + (c + - a) * (hi + - lo) + - (lo * (b + - a)))
      with ((c + - a) * (hi + - lo)) by ring.
    rewrite <- (Qcmult_0_l (hi + - lo)).
    apply Qcmult_le_compat_r; [|exact Hr].
    apply Qcle_minus_iff in Hac. exact Hac.
  - apply Qcmult_lt_0_le_reg_r with (z := b + - a); [exact Hd|].
    rewrite <- Hyd'. apply Qcle_minus_iff.
    replace (y * (b + - a) + (b + - c) * (hi + - lo) + - (y * (b + - a)))
      with ((b + - c) * (hi + - lo)) by ring.
    rewrite <- (Qcmult_0_l (hi + - lo)).
    apply Qcmult_le_compat_r; [|exact Hr].
    apply Qcle_minus_iff in Hcb. exact Hcb.
  - intros ->. unfold y. ring.
  - intros ->. unfold y, k. field. exact Hd0.
Qed.

(** Clipping a number to finite bounds [a <= b]. *)
Lemma clip_cell_exact (a b : Qc) (x : exact) :
  a <= b -> isnan x = false ->
  exists c,
    clip_cell (EFin a) (EFin b) x = EFin c /\ a <= c /\ c <= b /\
    (leb x (EFin a) = true -> c = a) /\
    (leb (EFin b) x = true -> c = b).
Proof.
  intros Hab Hx. unfold clip_cell, clip_upper, clip_lower, geb. simpl.
  destruct x as [|[|]|v]; try discriminate; simpl.
  - exists a. rewrite (proj2 (Qc_leb_le a b) Hab). simpl.
    repeat split; try apply Qcle_refl; try assumption; discriminate.
  - exists b. repeat split; try apply Qcle_refl; try assumption; discriminate.
  - destruct (Qc_leb a v) eqn:Eav; simpl.
    + apply Qc_leb_le in Eav. destruct (Qc_leb v b) eqn:Evb; simpl.
      * apply Qc_leb_le in Evb. exists v. repeat split; try assumption.
        -- intros H. apply Qc_leb_le in H. apply Qcle_antisym; assumption.
        -- intros H. apply Qc_leb_le in H. apply Qcle_antisym; assumption.
      * apply Qc_leb_false in Evb. exists b.
        repeat split; try apply Qcle_refl; try assumption.
        intros H. apply Qc_leb_le in H. exfalso.
        apply (Qclt_not_le _ _ Evb). eapply Qcle_trans; eassumption.
    + apply Qc_leb_false in Eav. rewrite (proj2 (Qc_leb_le a b) Hab). simpl.
      exists a. repeat split; try apply Qcle_refl; try assumption.
      intros H. apply Qc_leb_le in H. exfalso.
      apply (Qclt_not_le _ _ Eav). eapply Qcle_trans; eassumption.
Qed.

Lemma clip_cell_within (a b : Qc) (x : exact) :
  a <= b -> within a b (clip_cell (EFin a) (EFin b) x).
Proof.
  intros Hab. destruct (isnan x) eqn:Hx.
  - left. rewrite clip_cell_nan by exact Hx. destruct x; try discriminate.
    reflexivity.
  - right. destruct (clip_cell_exact x Hab Hx) as (c & Hc & H1 & H2 & _).
    exists c. auto.
Qed.

Lemma fold_fmin_within (a b : Qc) (l : list exact) (acc : exact) :
  Forall (within a b) l -> within a b acc ->
  acc = EFin a \/ In (EFin a) l ->
  fold_left fmin l acc = EFin a.
Proof.
  revert acc. induction l as [|e l IH]; intros acc Hl Hacc Hin; simpl.
  - destruct Hin as [H|[]]. exact H.
  - inversion Hl as [|e' l' He Hl']; subst. apply IH; [exact Hl'| |].
    + unfold fmin. destruct (leb acc e || isnan e); assumption.
    + unfold fmin.
      destruct He as [->|(c & -> & Hc1 & Hc2)];
        destruct Hacc as [->|(p & -> & Hp1 & Hp2)]; simpl.
      * destruct Hin as [H|[H|H]]; try discriminate. right. exact H.
      * destruct Hin as [H|[H|H]]; try discriminate; [left|right]; exact H.
      * destruct Hin as [H|[H|H]]; try discriminate; [left|right]; exact H.
      * rewrite orb_false_r. destruct (Qc_leb p c) eqn:Epc.
        -- apply Qc_leb_le in Epc.
           destruct Hin as [H|[H|H]]; [left; exact H| |right; exact H].
           injection H as ->. left. f_equal.
           apply Qcle_antisym; [exact Epc|exact Hp1].
        -- apply Qc_leb_false in Epc.
           destruct Hin as [H|[H|H]]; [|left; exact H|right; exact H].
           injection H as ->. exfalso. exact (Qclt_not_le _ _ Epc Hc1).
Qed.

Lemma fold_fmax_within (a b : Qc) (l : list exact) (acc : exact) :
  Forall (within a b) l -> within a b acc ->
  acc = EFin b \/ In (EFin b) l ->
  fold_left fmax l acc = EFin b.
Proof.
  revert acc. induction l as [|e l IH]; intros acc Hl Hacc Hin; simpl.
  - destruct Hin as [H|[]]. exact H.
  - inversion Hl as [|e' l' He Hl']; subst. apply IH; [exact Hl'| |].
    + unfold fmax. destruct (geb acc e || isnan e); assumption.
    + unfold fmax, geb.
      destruct He as [->|(c & -> & Hc1 & Hc2)];
        destruct Hacc as [->|(p & -> & Hp1 & Hp2)]; simpl.
      * destruct Hin as [H|[H|H]]; try discriminate. right. exact H.
      * destruct Hin as [H|[H|H]]; try discriminate; [left|right]; exact H.
      * destruct Hin as [H|[H|H]]; try discriminate; [left|right]; exact H.
      * rewrite orb_false_r. destruct (Qc_leb c p) eqn:Ecp.
        -- apply Qc_leb_le in Ecp.
           destruct Hin as [H|[H|H]]; [left; exact H| |right; exact H].
           injection H as ->. left. f_equal.
           apply Qcle_antisym; [exact Hp2|exact Ecp].
        -- apply Qc_leb_false in Ecp.
           destruct Hin as [H|[H|H]]; [|left; exact H|right; exact H].
           injection H as ->. exfalso. exact (Qclt_not_le _ _ Ecp Hc2).
Qed.

End ExactScaling.

(** ** What [fit] leaves in the scaler *)

Section FitFacts.
Context {A : Type} {AR : Arith A}.
Variable nanpercentile_1d : list A -> A -> A.

Lemma nth_error_seq0 (n j : nat) : j < n -> nth_error (seq 0 n) j = Some j.
Proof.
  intros Hj. rewrite (nth_error_nth' _ 0) by (rewrite length_seq; exact Hj).
  rewrite seq_nth by exact Hj. reflexivity.
Qed.

Lemma nth_error_columns_of (X : DataFrame A) (j : nat) :
  j < shape1 X -> nth_error (columns_of X) j = Some (column j (values X)).
Proof.
  intros Hj. unfold columns_of.
  rewrite nth_error_map, nth_error_seq0 by exact Hj. reflexivity.
Qed.

Lemma column_clipped (X : DataFrame A) (lower upper : list A) (j : nat)
  (lo hi : A) :
  nth_error lower j = Some lo -> nth_error upper j = Some hi ->
  column j (values (clipped X lower upper)) =
  map (clip_cell lo hi) (column j (values X)).
Proof.
  intros Hlo Hhi. unfold column, clipped. simpl.
  induction (values X) as [|r Xv IH]; simpl; [reflexivity|].
  rewrite map_app, IH. f_equal.
  rewrite nth_error_map2.
  assert (Hb : nth_error (combine lower upper) j = Some (lo, hi)).
  { clear - Hlo Hhi. revert upper j Hlo Hhi.
    induction lower as [|l lower IHl]; intros [|u upper] [|j] Hlo Hhi;
      simpl in *; try discriminate.
    - congruence.
    - apply IHl; assumption. }
  rewrite Hb. destruct (nth_error r j); reflexivity.
Qed.

Lemma fit_returns (X0 : DataFrame A) (s0 s1 : RobustMinMaxScaler A) :
  MinMaxScaler_fit nanpercentile_1d X0 s0 = (Return tt, s1) ->
  exists rmin rmax f,
    robust_data_min s1 = Some rmin /\
    robust_data_max s1 = Some rmax /\
    fitted_ s1 = Some f /\
    feature_range s1 = feature_range s0 /\
    length rmin = shape1 X0 /\
    length rmax = shape1 X0 /\
    geb (fst (feature_range s0)) (snd (feature_range s0)) = false /\
    data_min_ f = nanmin (clipped X0 rmin rmax) /\
    data_max_ f = nanmax (clipped X0 rmin rmax) /\
    scale_ f =
      map (fun r => div (sub (snd (feature_range s0))
                           (fst (feature_range s0))) r)
        (_handle_zeros_in_scale (map2 sub (data_max_ f) (data_min_ f))) /\
    min_ f =
      map2 (fun d sc => sub (fst (feature_range s0)) (mul d sc))
        (data_min_ f) (scale_ f).
Proof.
  unfold MinMaxScaler_fit, RobustMinMaxScaler_partial_fit,
    MinMaxScaler_partial_fit, MinMaxScaler__reset, bind, get, lift, raise,
    ret, set_robust, set_fitted, clip. simpl.
  destruct (nanpercentile _ X0 _) as [rmin|]; simpl; [|discriminate].
  destruct (nanpercentile _ X0 _) as [rmax|]; simpl; [|discriminate].
  destruct (Nat.eqb (length rmin) (shape1 X0)) eqn:E1; simpl; [|discriminate].
  destruct (Nat.eqb (length rmax) (shape1 X0)) eqn:E2; simpl; [|discriminate].
  destruct (geb _ _) eqn:Eg; simpl; [discriminate|].
  destruct (check_array _); simpl; [|discriminate].
  intros H. injection H as <-. simpl.
  apply Nat.eqb_eq in E1, E2.
  exists rmin, rmax. eexists. repeat split; try assumption; reflexivity.
Qed.

End FitFacts.

Section TransformCell.
Context {A : Type} {AR : Arith A}.

(** The cell [transform] computes: the input clipped to the robust bounds
    of its column, times [scale_], plus [min_]. *)
Lemma scaler_transform_cell
  (s : RobustMinMaxScaler A) (X Y : DataFrame A) (f : MinMaxFitted A)
  (rmin rmax : list A) (t j : nat) (x ra rb sc mn : A) :
  fitted_ s = Some f ->
  robust_data_min s = Some rmin ->
  robust_data_max s = Some rmax ->
  nth_error rmin j = Some ra ->
  nth_error rmax j = Some rb ->
  nth_error (scale_ f) j = Some sc ->
  nth_error (min_ f) j = Some mn ->
  fst (RobustMinMaxScaler_transform X s) = Return Y ->
  at_ X t j = Some x ->
  at_ Y t j = Some (add (mul (clip_cell ra rb x) sc) mn).
Proof.
  intros Hf Hrmin Hrmax Hra Hrb Hsc Hmn.
  unfold RobustMinMaxScaler_transform, MinMaxScaler_transform, bind,
    check_is_fitted, attr, lift, ret, raise, clip.
  rewrite Hf. simpl. rewrite Hrmin. simpl. rewrite Hrmax. simpl.
  destruct (Nat.eqb (length rmin) (shape1 X) &&
            Nat.eqb (length rmax) (shape1 X)); simpl; [|discriminate].
  rewrite Hf. destruct (check_array _); simpl; [|discriminate].
  destruct (Nat.eqb (length (scale_ f)) _); simpl; [|discriminate].
  intros HY. injection HY as <-. intros Hx.
  unfold at_ in *. simpl. rewrite row_cell, nth_error_map.
  unfold cell in Hx. destruct (nth_error (values X) t) as [row|];
    [|discriminate].
  simpl. rewrite !nth_error_map2, Hx, Hsc, Hmn.
  assert (Hb : nth_error (combine rmin rmax) j = Some (ra, rb)).
  { clear - Hra Hrb. revert rmax j Hra Hrb.
    induction rmin as [|l rmin IHl]; intros [|u rmax] [|j] Hra Hrb;
      simpl in *; try discriminate.
    - congruence.
    - apply IHl; assumption. }
  rewrite Hb. reflexivity.
Qed.

End TransformCell.

(** ** Clamping, in any arithmetic *)

Section Clamping.
Context {A : Type} {AR : Arith A} {AL : ArithLaws AR}.

Lemma not_nan_of_leb_l (x y : A) : leb x y = true -> isnan x = false.
Proof.
  intros H. destruct (isnan x) eqn:E; [|reflexivity].
  rewrite (leb_nan_l x y E) in H. discriminate.
Qed.

Lemma not_nan_of_ltb_l (x y : A) : ltb x y = true -> isnan x = false.
Proof.
  intros H. destruct (isnan x) eqn:E; [|reflexivity].
  rewrite (ltb_nan_l x y E) in H. discriminate.
Qed.

Lemma not_nan_of_ltb_r (x y : A) : ltb x y = true -> isnan y = false.
Proof.
  intros H. destruct (isnan y) eqn:E; [|reflexivity].
  rewrite (ltb_nan_r x y E) in H. discriminate.
Qed.

Lemma clip_cell_below (lo hi x : A) :
  leb lo hi = true -> ltb x lo = true -> clip_cell lo hi x = lo.
Proof.
  intros Hb Hx. unfold clip_cell, clip_lower, clip_upper, geb.
  rewrite (not_nan_of_leb_l _ _ Hb), (ltb_leb_false _ _ Hx),
    (not_nan_of_ltb_l _ _ Hx). simpl.
  destruct (isnan hi); [reflexivity|]. rewrite Hb. reflexivity.
Qed.

Lemma clip_cell_above (lo hi x : A) :
  leb lo x = true -> ltb hi x = true -> clip_cell lo hi x = hi.
Proof.
  intros Hlo Hx. unfold clip_cell, clip_lower, clip_upper, geb.
  rewrite (not_nan_of_leb_l _ _ Hlo), Hlo. simpl.
  rewrite (not_nan_of_ltb_l _ _ Hx), (ltb_leb_false _ _ Hx),
    (not_nan_of_ltb_r _ _ Hx). reflexivity.
Qed.

(** The robustness of the scaler, binary64 included: a value beyond a robust
    bound is transformed as the bound itself is, whatever the value. *)
Lemma transform_clamps_outliers
  (s : RobustMinMaxScaler A) (X Y : DataFrame A) (f : MinMaxFitted A)
  (rmin rmax : list A) (t j : nat) (x ra rb sc mn : A) :
  fitted_ s = Some f ->
  robust_data_min s = Some rmin ->
  robust_data_max s = Some rmax ->
  nth_error rmin j = Some ra ->
  nth_error rmax j = Some rb ->
  nth_error (scale_ f) j = Some sc ->
  nth_error (min_ f) j = Some mn ->
  fst (RobustMinMaxScaler_transform X s) = Return Y ->
  at_ X t j = Some x ->
  leb ra rb = true ->
  (ltb x ra = true -> at_ Y t j = Some (add (mul ra sc) mn)) /\
  (leb ra x = true -> ltb rb x = true ->
   at_ Y t j = Some (add (mul rb sc) mn)).
Proof.
  intros Hf Hrmin Hrmax Hra Hrb Hsc Hmn HY Hx Hb.
  pose proof (scaler_transform_cell _ _ _ _ Hf Hrmin Hrmax Hra Hrb Hsc Hmn
                HY Hx) as Hcell.
  split.
  - intros Hlt. rewrite Hcell, (clip_cell_below _ _ _ Hb Hlt). reflexivity.
  - intros Hle Hlt. rewrite Hcell, (clip_cell_above _ _ _ Hle Hlt).
    reflexivity.
Qed.

End Clamping.

Section ExactClaims.
Import Exact.
Local Open Scope Qc_scope.
Variable spa_python : timestamp -> exact -> exact -> exact.
Variable haurwitz : exact -> exact.
Variable nanpercentile_1d : list exact -> exact -> exact.

Lemma leb_true_not_nan (x y : exact) : leb x y = true -> isnan x = false.
Proof. destruct x; [discriminate|reflexivity|reflexivity]. Qed.

Lemma leb_true_not_nan_r (x y : exact) : leb x y = true -> isnan y = false.
Proof. destruct x, y; try discriminate; reflexivity. Qed.

Lemma clipped_column_within (a b : Qc) (col : list exact) :
  a <= b -> Forall (within a b) (map (clip_cell (EFin a) (EFin b)) col).
Proof.
  intros Hab. apply Forall_forall. intros e He.
  apply in_map_iff in He. destruct He as (v & <- & _).
  apply clip_cell_within, Hab.
Qed.

Lemma reduce_fmin_clipped (a b : Qc) (col : list exact) :
  a <= b ->
  (exists v, In v col /\ leb v (EFin a) = true) ->
  reduce fmin (map (clip_cell (EFin a) (EFin b)) col) = EFin a.
Proof.
  intros Hab (v & Hv & Hle).
  assert (Hin : In (EFin a) (map (clip_cell (EFin a) (EFin b)) col)).
  { apply in_map_iff. exists v. split; [|exact Hv].
    destruct (clip_cell_exact v Hab (leb_true_not_nan _ _ Hle))
      as (c & Hc & _ & _ & H1 & _).
    rewrite Hc, (H1 Hle). reflexivity. }
  pose proof (clipped_column_within col Hab) as HF.
  destruct (map (clip_cell (EFin a) (EFin b)) col) as [|e l]; [destruct Hin|].
  simpl. inversion HF; subst.
  apply fold_fmin_within with (b := b); assumption.
Qed.

Lemma reduce_fmax_clipped (a b : Qc) (col : list exact) :
  a <= b ->
  (exists v, In v col /\ leb (EFin b) v = true) ->
  reduce fmax (map (clip_cell (EFin a) (EFin b)) col) = EFin b.
Proof.
  intros Hab (v & Hv & Hle).
  assert (Hin : In (EFin b) (map (clip_cell (EFin a) (EFin b)) col)).
  { apply in_map_iff. exists v. split; [|exact Hv].
    destruct (clip_cell_exact v Hab (leb_true_not_nan_r _ _ Hle))
      as (c & Hc & _ & _ & _ & H2).
    rewrite Hc, (H2 Hle). reflexivity. }
  pose proof (clipped_column_within col Hab) as HF.
  destruct (map (clip_cell (EFin a) (EFin b)) col) as [|e l]; [destruct Hin|].
  simpl. inversion HF; subst.
  apply fold_fmax_within with (a := a); assumption.
Qed.



End ExactClaims.
(** * More of the code *)

(** ** Zipped arrays, again *)

Section ZipFacts.
Context {A B : Type}.

Lemma map2_twice (f : A -> B -> A) (l : list A) (c : list B) :
  (forall x a, f (f x a) a = f x a) ->
  map2 f (map2 f l c) c = map2 f l c.
Proof.
  intros Hf. unfold map2. revert c.
  induction l as [|x l IH]; intros [|a c]; simpl; try reflexivity.
  rewrite Hf. f_equal. apply IH.
Qed.

Lemma map2_swap (f : A -> B -> A) (l : list A) (c c' : list B) :
  (forall x a b, f (f x a) b = f (f x b) a) ->
  map2 f (map2 f l c) c' = map2 f (map2 f l c') c.
Proof.
  intros Hf. unfold map2. revert c c'.
  induction l as [|x l IH]; intros [|a c] [|b c']; simpl; try reflexivity.
  rewrite Hf. f_equal. apply IH.
Qed.

End ZipFacts.

Section ShapeFacts.
Context {A B C : Type}.

Lemma has_shape_map2 (f : A -> B -> C) (t n : nat) (M : ndarray A)
  (N : ndarray B) :
  has_shape t n M = true -> has_shape t n N = true ->
  has_shape t n (mat_map2 f M N) = true.
Proof.
  unfold has_shape, n_rows, rows_have, mat_map2. intros HM HN.
  apply andb_true_iff in HM, HN. destruct HM as [HM1 HM2], HN as [HN1 HN2].
  apply Nat.eqb_eq in HM1, HN1. apply andb_true_iff. split.
  - apply Nat.eqb_eq. rewrite length_map2. lia.
  - apply forallb_forall. intros r Hr. unfold map2 in Hr.
    apply in_map_iff in Hr. destruct Hr as ([r1 r2] & <- & Hin).
    cbn [fst snd].
    rewrite forallb_forall in HM2, HN2.
    pose proof (in_combine_l _ _ _ _ Hin) as H1.
    pose proof (in_combine_r _ _ _ _ Hin) as H2.
    apply HM2, Nat.eqb_eq in H1. apply HN2, Nat.eqb_eq in H2.
    apply Nat.eqb_eq. rewrite length_map, length_combine. lia.
Qed.

End ShapeFacts.

(** ** More of ClearskyScalar *)

Section ClearskyMore.
Context {A : Type} {AR : Arith A} {AL : ArithLaws AR}.
Variable spa_python : timestamp -> A -> A -> A.
Variable haurwitz : A -> A.

Local Abbreviation raw := (raw_ghi spa_python haurwitz).
Local Abbreviation ghi := (ClearskyScalar_haurwitz_ghi spa_python haurwitz).
Local Abbreviation transform := (ClearskyScalar_transform spa_python haurwitz).
Local Abbreviation inverse_transform :=
  (ClearskyScalar_inverse_transform spa_python haurwitz).
Local Abbreviation filter_to_daylight :=
  (ClearskyScalar_filter_to_daylight spa_python haurwitz).
Local Abbreviation masked := (daylight spa_python haurwitz).


(** X2: when the columns of a well-formed table are as many as the
    locations, [transform], [inverse_transform] and [filter_to_daylight] all
    return, and each returns a well-formed table with the index and the
    column labels of the input. *)
Theorem clearsky_methods_keep_labels_and_shape (w : World A) (m : A) :
  same_shape (self w) ->
  length (lats (self w)) = shape1 (X_ w) ->
  wf_frame (X_ w) = true ->
  exists Y Z F,
    transform w = (Return Y, w) /\
    inverse_transform w = (Return Z, w) /\
    filter_to_daylight m false w = (Return (Some F), w) /\
    (index Y = index (X_ w) /\ columns Y = columns (X_ w) /\
     wf_frame Y = true) /\
    (index Z = index (X_ w) /\ columns Z = columns (X_ w) /\
     wf_frame Z = true) /\
    (index F = index (X_ w) /\ columns F = columns (X_ w) /\
     wf_frame F = true).
Proof.
  intros Hs Hl Hwf. do 3 eexists.
  split; [apply (transform_returns _ _ _ Hs Hl)|].
  split; [apply (inverse_transform_returns _ _ _ Hs Hl)|].
  split; [apply (filter_to_daylight_returns _ _ m false _ Hs Hl)|].
  pose proof (ghi_shape spa_python haurwitz (index (X_ w)) Hs) as Hg.
  rewrite Hl in Hg. fold (shape0 (X_ w)) in Hg.
  unfold wf_frame, shape0, shape1, daylight in *. simpl.
  repeat split; apply has_shape_map2; try assumption;
    rewrite has_shape_map; assumption.
Qed.

(** X3: [filter_to_daylight] never changes a value: every cell of its
    result is the cell of the input or NaN, and a NaN of the input is a NaN
    of the result. *)
Theorem filter_to_daylight_keeps_or_masks (w : World A) (m : A) :
  same_shape (self w) ->
  length (lats (self w)) = shape1 (X_ w) ->
  wf_frame (X_ w) = true ->
  exists Y,
    filter_to_daylight m false w = (Return (Some Y), w) /\
    forall t l x,
      at_ (X_ w) t l = Some x ->
      (at_ Y t l = Some x \/ at_ Y t l = Some nan) /\
      (isnan x = true -> exists y, at_ Y t l = Some y /\ isnan y = true).
Proof.
  intros Hs Hl Hwf. exists (masked m w).
  split; [apply (filter_to_daylight_returns _ _ m false _ Hs Hl)|].
  intros t l x Hx.
  destruct (cell_has_shape _ _ _ _ _ Hwf Hx) as [Ht Hlt].
  pose proof (raw_ghi_shape spa_python haurwitz (index (X_ w)) Hs) as Hg.
  rewrite Hl in Hg.
  destruct (has_shape_cell _ Hg Ht Hlt) as [g Hgc].
  rewrite (daylight_cell spa_python haurwitz m w _ _ Hx Hgc).
  destruct (gtb _ _).
  - split; [left; reflexivity|]. intros Hn. eauto.
  - split; [right; reflexivity|]. intros _. exists nan.
    split; [reflexivity|apply isnan_nan].
Qed.

Lemma mask_twice (x : A) (c : bool) :
  (if c then (if c then x else nan) else nan) = (if c then x else nan).
Proof. destruct c; reflexivity. Qed.

Lemma mask_swap (x : A) (c c' : bool) :
  (if c' then (if c then x else nan) else nan)
  = (if c then (if c' then x else nan) else nan).
Proof. destruct c, c'; reflexivity. Qed.

(** X4: [filter_to_daylight] is idempotent: filtering the caller's table in
    place a second time, with the same threshold, leaves it as the first
    call left it. *)
Theorem filter_to_daylight_is_idempotent (w : World A) (m : A) :
  same_shape (self w) ->
  length (lats (self w)) = shape1 (X_ w) ->
  exists w',
    filter_to_daylight m true w = (Return None, w') /\
    filter_to_daylight m true w' = (Return None, w').
Proof.
  intros Hs Hl. exists (mkWorld (self w) (masked m w)).
  split; [apply (filter_to_daylight_returns _ _ m true _ Hs Hl)|].
  rewrite (filter_to_daylight_returns spa_python haurwitz m true
             (mkWorld (self w) (masked m w)) Hs Hl).
  do 2 f_equal. unfold daylight. simpl. f_equal.
  unfold mat_map2. apply map2_twice. intros r c.
  apply map2_twice. intros x b. apply mask_twice.
Qed.

(** X5: two thresholds can be applied in either order: filtering with
    [m1] and then with [m2] returns the table that filtering with [m2] and
    then with [m1] returns. *)
Theorem filter_to_daylight_commutes (w : World A) (m1 m2 : A) :
  same_shape (self w) ->
  length (lats (self w)) = shape1 (X_ w) ->
  exists Y1 Y2 Y,
    filter_to_daylight m1 false w = (Return (Some Y1), w) /\
    filter_to_daylight m2 false w = (Return (Some Y2), w) /\
    fst (filter_to_daylight m2 false (mkWorld (self w) Y1)) = Return (Some Y) /\
    fst (filter_to_daylight m1 false (mkWorld (self w) Y2)) = Return (Some Y).
Proof.
  intros Hs Hl. do 3 eexists.
  split; [apply (filter_to_daylight_returns _ _ m1 false _ Hs Hl)|].
  split; [apply (filter_to_daylight_returns _ _ m2 false _ Hs Hl)|].
  rewrite (filter_to_daylight_returns spa_python haurwitz m2 false
             (mkWorld (self w) (masked m1 w)) Hs Hl).
  rewrite (filter_to_daylight_returns spa_python haurwitz m1 false
             (mkWorld (self w) (masked m2 w)) Hs Hl).
  split; [reflexivity|]. simpl. do 2 f_equal. unfold daylight. simpl.
  f_equal. unfold mat_map2. apply map2_swap. intros r c c'.
  apply map2_swap. intros x a b. apply mask_swap.
Qed.

(** X6: the zero guard of [transform] is not undone: at a cell whose fudged
    GHI compares equal to zero, [inverse_transform (transform X)] is NaN
    whatever [X] holds there. *)
Theorem roundtrip_is_nan_where_fudged_ghi_is_zero
  (w : World A) (t l : nat) (x g : A) :
  same_shape (self w) ->
  length (lats (self w)) = shape1 (X_ w) ->
  at_ (X_ w) t l = Some x ->
  cell (ghi (self w) (index (X_ w))) t l = Some g ->
  eqb g zero = true ->
  exists Y Z z,
    transform w = (Return Y, w) /\
    inverse_transform (mkWorld (self w) Y) = (Return Z, mkWorld (self w) Y) /\
    at_ Z t l = Some z /\ isnan z = true.
Proof.
  intros Hs Hl Hx Hg Hz.
  destruct (roundtrip_cell spa_python haurwitz w t l Hs Hl Hx Hg)
    as (Y & Z & HY & HZ & _ & _ & Hcell).
  exists Y, Z. eexists. repeat split; try eassumption.
  unfold divisor. rewrite Hz. apply mul_nan_l, div_nan_r, isnan_nan.
Qed.

(** The cell of [transform (inverse_transform X)]. *)
Lemma inverse_roundtrip_cell (w : World A) (t l : nat) (x g : A) :
  same_shape (self w) ->
  length (lats (self w)) = shape1 (X_ w) ->
  at_ (X_ w) t l = Some x ->
  cell (ghi (self w) (index (X_ w))) t l = Some g ->
  exists Y Z,
    inverse_transform w = (Return Y, w) /\
    transform (mkWorld (self w) Y) = (Return Z, mkWorld (self w) Y) /\
    at_ Z t l = Some (div (mul x g) (divisor g)).
Proof.
  intros Hs Hl Hx Hg. do 2 eexists.
  split; [apply (inverse_transform_returns _ _ _ Hs Hl)|].
  split; [apply transform_returns; [exact Hs|exact Hl]|].
  unfold at_ in *. simpl.
  rewrite !cell_mat_map2, Hx, cell_mat_map, Hg. reflexivity.
Qed.

End ClearskyMore.

(** ** More of RobustMinMaxScaler *)

Section RobustMore.
Context {A : Type} {AR : Arith A}.
Variable nanpercentile_1d : list A -> A -> A.

Local Abbreviation Scaler := (RobustMinMaxScaler A).
Local Abbreviation partial_fit :=
  (RobustMinMaxScaler_partial_fit nanpercentile_1d).
Local Abbreviation fit := (MinMaxScaler_fit nanpercentile_1d).
Local Abbreviation fit_transform :=
  (RobustMinMaxScaler_fit_transform nanpercentile_1d).
Local Abbreviation percentiles :=
  (fun (X : DataFrame A) (q : A) =>
     map (fun c => nanpercentile_1d c q) (columns_of X)).

(** The inherited [partial_fit] either stores new fitted attributes and
    nothing else, or raises [ValueError] and stores nothing. *)
Lemma MinMaxScaler_partial_fit_cases (X : DataFrame A) (s : Scaler) :
  (exists f,
     MinMaxScaler_partial_fit X s = (Return tt, snd (set_fitted f s)) /\
     check_array X = Return tt /\
     geb (fst (feature_range s)) (snd (feature_range s)) = false /\
     length (min_ f) = length (scale_ f) /\
     (fitted_ s = None -> length (scale_ f) = shape1 X)) \/
  MinMaxScaler_partial_fit X s = (Raise ValueError, s).
Proof.
  unfold MinMaxScaler_partial_fit, bind, get, lift, raise, ret.
  destruct (geb _ _) eqn:Eg; [right; reflexivity|].
  destruct (check_array X) as [[]|e] eqn:Ec.
  2:{ right. unfold check_array in Ec.
      destruct (_ || _); [injection Ec as <-; reflexivity|discriminate]. }
  assert (Hlen : forall dmin dmax : list A,
    length (map2 (fun d sc => sub (fst (feature_range s)) (mul d sc)) dmin
              (map (fun r => div (sub (snd (feature_range s))
                                    (fst (feature_range s))) r)
                 (_handle_zeros_in_scale (map2 sub dmax dmin)))) =
    length (map (fun r => div (sub (snd (feature_range s))
                                 (fst (feature_range s))) r)
              (_handle_zeros_in_scale (map2 sub dmax dmin)))).
  { intros dmin dmax. unfold _handle_zeros_in_scale.
    rewrite length_map2, !length_map, length_map2. lia. }
  destruct (fitted_ s) as [f|] eqn:Ef.
  - destruct (Nat.eqb (length (scale_ f)) (shape1 X)); [|right; reflexivity].
    left. eexists. split; [reflexivity|]. simpl.
    repeat split; [apply Hlen|discriminate].
  - left. eexists. split; [reflexivity|]. simpl.
    repeat split; [apply Hlen|]. intros _.
    unfold _handle_zeros_in_scale, nanmax, nanmin.
    rewrite !length_map, length_map2, !length_map, length_columns_of. lia.
Qed.

(** [partial_fit] of the scaler: with a percentile numpy refuses nothing is
    stored; otherwise the robust bounds of the batch are stored and the
    clipped batch goes to the inherited [partial_fit]. *)
Lemma partial_fit_cases (X : DataFrame A) (s : Scaler) :
  (valid_percentile (percentile_min s)
   && valid_percentile (percentile_max s) = false /\
   partial_fit X s = (Raise ValueError, s)) \/
  (valid_percentile (percentile_min s)
   && valid_percentile (percentile_max s) = true /\
   partial_fit X s =
   MinMaxScaler_partial_fit
     (clipped X (percentiles X (percentile_min s))
        (percentiles X (percentile_max s)))
     (snd (set_robust (percentiles X (percentile_min s))
             (percentiles X (percentile_max s)) s))).
Proof.
  unfold RobustMinMaxScaler_partial_fit, bind, get, lift, nanpercentile,
    percentile_min, percentile_max, clip.
  destruct (valid_percentile (mul (saturation_fraction s) hundred));
    [|left; split; reflexivity].
  destruct (valid_percentile (mul (sub one (saturation_fraction s)) hundred));
    [|left; split; reflexivity].
  right. split; [reflexivity|]. simpl.
  rewrite !length_map, length_columns_of, Nat.eqb_refl. reflexivity.
Qed.

Lemma fit_is_partial_fit_after_reset (X : DataFrame A) (s : Scaler) :
  fit X s = partial_fit X (snd (MinMaxScaler__reset s)).
Proof. reflexivity. Qed.

(** X8: [transform] and [inverse_transform] only read the scaler: whether
    they return or raise, the scaler is afterwards what it was. *)
Theorem scaler_transforms_leave_the_scaler (s : Scaler) (X : DataFrame A) :
  snd (RobustMinMaxScaler_transform X s) = s /\
  snd (RobustMinMaxScaler_inverse_transform X s) = s.
Proof.
  unfold RobustMinMaxScaler_transform, RobustMinMaxScaler_inverse_transform,
    MinMaxScaler_transform, MinMaxScaler_inverse_transform, bind,
    check_is_fitted, attr, lift, ret, raise.
  split.
  - destruct (fitted_ s) as [f|] eqn:Ef; simpl; [|reflexivity].
    destruct (robust_data_min s); simpl; [|reflexivity].
    destruct (robust_data_max s); simpl; [|reflexivity].
    destruct (clip X _ _); simpl; [|reflexivity].
    rewrite Ef. destruct (check_array _); simpl; [|reflexivity].
    destruct (Nat.eqb _ _); reflexivity.
  - destruct (fitted_ s) as [f|]; simpl; [|reflexivity].
    destruct (check_array X); simpl; [|reflexivity].
    destruct (broadcast (min_ f) _); simpl; [|reflexivity].
    destruct (broadcast (scale_ f) _); reflexivity.
Qed.

(** X9: fitting never touches the configuration: after [partial_fit] and
    after [fit], successful or not, [feature_range], [copy] and
    [saturation_fraction] are what they were. *)
Theorem fitting_keeps_the_configuration (s : Scaler) (X : DataFrame A) :
  (feature_range (snd (partial_fit X s)) = feature_range s /\
   copy (snd (partial_fit X s)) = copy s /\
   saturation_fraction (snd (partial_fit X s)) = saturation_fraction s) /\
  (feature_range (snd (fit X s)) = feature_range s /\
   copy (snd (fit X s)) = copy s /\
   saturation_fraction (snd (fit X s)) = saturation_fraction s).
Proof.
  assert (H : forall u : Scaler,
    feature_range (snd (partial_fit X u)) = feature_range u /\
    copy (snd (partial_fit X u)) = copy u /\
    saturation_fraction (snd (partial_fit X u)) = saturation_fraction u).
  { intros u. destruct (partial_fit_cases X u) as [[_ ->]|[_ ->]].
    - repeat split.
    - match goal with
      | |- context [MinMaxScaler_partial_fit ?Y ?v] =>
          destruct (MinMaxScaler_partial_fit_cases Y v) as [(f & -> & _)| ->]
      end; repeat split. }
  split; [apply H|]. rewrite fit_is_partial_fit_after_reset.
  destruct (H (snd (MinMaxScaler__reset s))) as (H1 & H2 & H3).
  rewrite H1, H2, H3. repeat split.
Qed.



(** X12: a [partial_fit] that fails after the percentiles were taken has
    already stored the robust bounds of the new batch, while the fitted
    attributes are still those of the batches before. *)
Theorem failed_partial_fit_has_stored_the_bounds
  (s : Scaler) (X : DataFrame A) (e : exn) :
  valid_percentile (percentile_min s) = true ->
  valid_percentile (percentile_max s) = true ->
  fst (partial_fit X s) = Raise e ->
  e = ValueError /\
  fitted_ (snd (partial_fit X s)) = fitted_ s /\
  robust_data_min (snd (partial_fit X s))
  = Some (percentiles X (percentile_min s)) /\
  robust_data_max (snd (partial_fit X s))
  = Some (percentiles X (percentile_max s)).
Proof.
  intros Hmin Hmax.
  destruct (partial_fit_cases X s) as [[Hv _]|[_ ->]].
  { rewrite Hmin, Hmax in Hv. discriminate. }
  match goal with
  | |- context [MinMaxScaler_partial_fit ?Y ?v] =>
      destruct (MinMaxScaler_partial_fit_cases Y v) as [(f & -> & _)| ->]
  end; simpl; intros H; [discriminate|].
  injection H as <-. repeat split.
Qed.

(** What a successful [fit] leaves. *)
Lemma fit_succeeds (X : DataFrame A) (s s1 : Scaler) :
  fit X s = (Return tt, s1) ->
  exists rmin rmax f,
    robust_data_min s1 = Some rmin /\
    robust_data_max s1 = Some rmax /\
    fitted_ s1 = Some f /\
    length rmin = shape1 X /\
    length rmax = shape1 X /\
    length (scale_ f) = shape1 X /\
    length (min_ f) = shape1 X /\
    check_array (clipped X rmin rmax) = Return tt.
Proof.
  rewrite fit_is_partial_fit_after_reset.
  destruct (partial_fit_cases X (snd (MinMaxScaler__reset s)))
    as [[_ ->]|[_ ->]]; [discriminate|].
  match goal with
  | |- context [MinMaxScaler_partial_fit ?Y ?v] =>
      destruct (MinMaxScaler_partial_fit_cases Y v)
        as [(f & -> & Hc & _ & Hl & Hn)| ->]
  end; [|discriminate].
  intros H. injection H as <-. simpl in *.
  do 2 eexists. exists f. repeat split; try reflexivity.
  - rewrite length_map. apply length_columns_of.
  - rewrite length_map. apply length_columns_of.
  - apply Hn. reflexivity.
  - rewrite Hl. apply Hn. reflexivity.
  - exact Hc.
Qed.

(** X13: [fit_transform] fails only where [fit] fails: when [fit] returns,
    [fit_transform] returns a table with the index and the column labels
    of the batch and leaves the scaler as [fit] leaves it; when [fit]
    raises, [fit_transform] raises the same. *)
Theorem fit_transform_returns_when_fit_does (s : Scaler) (X : DataFrame A) :
  (fst (fit X s) = Return tt ->
   exists Y,
     fit_transform X s = (Return Y, snd (fit X s)) /\
     index Y = index X /\ columns Y = columns X) /\
  (forall e, fst (fit X s) = Raise e ->
             fit_transform X s = (Raise e, snd (fit X s))).
Proof.
  unfold RobustMinMaxScaler_fit_transform. split.
  - intros Hfit. destruct (fit X s) as [r s1] eqn:E. simpl in Hfit. subst r.
    destruct (fit_succeeds X s E)
      as (rmin & rmax & f & Hrmin & Hrmax & Hf & Hl1 & Hl2 & Hl3 & _ & Hc).
    unfold bind at 1. rewrite E. simpl.
    unfold RobustMinMaxScaler_transform, MinMaxScaler_transform, bind,
      check_is_fitted, attr, lift, ret, raise, clip.
    rewrite Hf. simpl. rewrite Hrmin. simpl. rewrite Hrmax. simpl.
    rewrite Hl1, Hl2, Nat.eqb_refl. simpl. rewrite Hf, Hc. simpl.
    unfold shape1 at 1. simpl. fold (shape1 X).
    rewrite Hl3, Nat.eqb_refl. eexists. repeat split.
  - intros e He. unfold bind. destruct (fit X s) as [r s1]. simpl in *.
    subst r. reflexivity.
Qed.

(** X14: a fitted scaler refuses a table of another width: after a
    successful [fit], [transform] of a table whose number of columns is not
    that of the fitted batch raises [ValueError]. *)
Theorem transform_refuses_another_width
  (s s1 : Scaler) (X0 X : DataFrame A) :
  fit X0 s = (Return tt, s1) ->
  shape1 X <> shape1 X0 ->
  RobustMinMaxScaler_transform X s1 = (Raise ValueError, s1).
Proof.
  intros Hfit Hw.
  destruct (fit_succeeds X0 s Hfit)
    as (rmin & rmax & f & Hrmin & Hrmax & Hf & Hl1 & _).
  unfold RobustMinMaxScaler_transform, bind, check_is_fitted, attr, lift,
    clip.
  rewrite Hf. simpl. rewrite Hrmin. simpl. rewrite Hrmax. simpl.
  rewrite Hl1. assert (E : Nat.eqb (shape1 X0) (shape1 X) = false).
  { apply Nat.eqb_neq. congruence. }
  rewrite E. reflexivity.
Qed.

End RobustMore.

Section RobustShapes.
Context {A : Type} {AR : Arith A}.
Variable nanpercentile_1d : list A -> A -> A.

Lemma rows_have_mapped (f : list A -> list A) (n : nat) (Xv : ndarray A) :
  rows_have n Xv = true ->
  (forall r, length r = n -> length (f r) = n) ->
  rows_have n (map f Xv) = true.
Proof.
  unfold rows_have. intros HX Hf. apply forallb_forall. intros r Hr.
  apply in_map_iff in Hr. destruct Hr as (r0 & <- & Hin).
  rewrite forallb_forall in HX. apply Nat.eqb_eq, Hf, Nat.eqb_eq, HX, Hin.
Qed.

Lemma has_shape_mapped (f : list A -> list A) (t n : nat) (Xv : ndarray A) :
  has_shape t n Xv = true ->
  (forall r, length r = n -> length (f r) = n) ->
  has_shape t n (map f Xv) = true.
Proof.
  unfold has_shape, n_rows. intros HX Hf.
  apply andb_true_iff in HX. destruct HX as [H1 H2].
  rewrite length_map, H1. simpl. apply rows_have_mapped; assumption.
Qed.

(** X15: the tables [transform] and [inverse_transform] of the scaler
    return are well formed and carry the index and the column labels of
    their input. *)
Theorem scaler_transforms_keep_labels_and_shape
  (s : RobustMinMaxScaler A) (X : DataFrame A) :
  reachable nanpercentile_1d s ->
  wf_frame X = true ->
  (forall Y, fst (RobustMinMaxScaler_transform X s) = Return Y ->
             index Y = index X /\ columns Y = columns X /\
             wf_frame Y = true) /\
  (forall Y, fst (RobustMinMaxScaler_inverse_transform X s) = Return Y ->
             index Y = index X /\ columns Y = columns X /\
             wf_frame Y = true).
Proof.
  intros Hs Hwf. apply reachable_inv in Hs. unfold fitted_inv in Hs. split.
  - unfold RobustMinMaxScaler_transform, MinMaxScaler_transform, bind,
      check_is_fitted, attr, lift, ret, raise, clip.
    destruct (fitted_ s) as [f|] eqn:Ef; simpl; [|discriminate].
    destruct (robust_data_min s) as [rmin|]; simpl; [|discriminate].
    destruct (robust_data_max s) as [rmax|]; simpl; [|discriminate].
    destruct (Nat.eqb (length rmin) (shape1 X)) eqn:E1; simpl;
      [|discriminate].
    destruct (Nat.eqb (length rmax) (shape1 X)) eqn:E2; simpl;
      [|discriminate].
    rewrite Ef. destruct (check_array _); simpl; [|discriminate].
    unfold shape1 at 1. simpl. fold (shape1 X).
    destruct (Nat.eqb (length (scale_ f)) (shape1 X)) eqn:E3; simpl;
      [|discriminate].
    apply Nat.eqb_eq in E1, E2, E3.
    intros Y HY. injection HY as <-. simpl. repeat split.
    unfold wf_frame, shape0, shape1. simpl.
    rewrite map_map. apply has_shape_mapped; [exact Hwf|].
    intros row Hr. unfold shape1 in *.
    rewrite !length_map2, length_combine. lia.
  - unfold RobustMinMaxScaler_inverse_transform,
      MinMaxScaler_inverse_transform, bind, check_is_fitted, lift, ret.
    destruct (fitted_ s) as [f|]; simpl; [|discriminate].
    destruct (check_array X); simpl; [|discriminate].
    destruct (broadcast (min_ f) _) as [mn|] eqn:Emn; simpl; [|discriminate].
    destruct (broadcast (scale_ f) _) as [sc|] eqn:Esc; simpl;
      [|discriminate].
    apply length_broadcast in Emn, Esc.
    intros Y HY. injection HY as <-. simpl. repeat split.
    unfold wf_frame, shape0, shape1. simpl.
    apply has_shape_mapped; [exact Hwf|].
    intros row Hr. unfold shape1 in *. rewrite !length_map2. lia.
Qed.

(** The cell [inverse_transform] computes when [min_] and [scale_] have one
    entry per column. *)
Lemma scaler_inverse_transform_cell
  (s : RobustMinMaxScaler A) (X Y : DataFrame A) (f : MinMaxFitted A)
  (t j : nat) (x sc mn : A) :
  fitted_ s = Some f ->
  length (scale_ f) = shape1 X ->
  length (min_ f) = shape1 X ->
  nth_error (scale_ f) j = Some sc ->
  nth_error (min_ f) j = Some mn ->
  fst (RobustMinMaxScaler_inverse_transform X s) = Return Y ->
  at_ X t j = Some x ->
  at_ Y t j = Some (div (sub x mn) sc).
Proof.
  intros Hf Hl1 Hl2 Hsc Hmn.
  unfold RobustMinMaxScaler_inverse_transform, MinMaxScaler_inverse_transform,
    bind, check_is_fitted, lift, ret, broadcast.
  rewrite Hf. simpl. destruct (check_array X); simpl; [|discriminate].
  rewrite Hl1, Hl2, Nat.eqb_refl. simpl.
  intros HY. injection HY as <-. intros Hx.
  unfold at_ in *. simpl. rewrite row_cell.
  unfold cell in Hx.
  destruct (nth_error (values X) t) as [row|]; [|discriminate].
  rewrite !nth_error_map2, Hx, Hmn, Hsc. reflexivity.
Qed.

End RobustShapes.

Section ExactMore.
Import Exact.
Local Open Scope Qc_scope.
Variable spa_python : timestamp -> exact -> exact -> exact.
Variable haurwitz : exact -> exact.

Lemma div_mul_cancel (x g : exact) :
  isnan x = false -> isnan g = false -> isinf g = false ->
  eqb g zero = false ->
  div (mul x g) (divisor g) = x.
Proof.
  unfold divisor. intros Hx Hg Hi Hz. rewrite Hz.
  destruct g as [|s|q]; try discriminate.
  simpl in Hz. apply Qc_eqb_false in Hz.
  assert (Hq : Qc_eqb q 0 = false).
  { destruct (Qc_eqb q 0) eqn:E; [|reflexivity].
    apply Qc_eqb_true in E. contradiction. }
  destruct x as [|s|p]; try discriminate; simpl.
  - rewrite Hq. simpl.
    rewrite xorb_assoc, xorb_nilpotent, xorb_false_r. reflexivity.
  - rewrite Hq. f_equal. apply Qcdiv_mult_l. exact Hz.
Qed.



End ExactMore.

Section ExactThreshold.
Import Exact.
Local Open Scope Qc_scope.
Variable spa_python : timestamp -> exact -> exact -> exact.
Variable haurwitz : exact -> exact.

Lemma gtb_lower_threshold (m1 m2 g0 g : exact) :
  leb m1 m2 = true ->
  gtb g (add m2 g0) = true ->
  gtb g (add m1 g0) = true.
Proof.
  unfold gtb.
  destruct m1 as [|[]|p], m2 as [|[]|q], g0 as [|[]|c], g as [|[]|d];
    simpl; try discriminate; try reflexivity.
  intros Hle Hlt. apply Qc_leb_le in Hle. apply Qc_ltb_lt in Hlt.
  apply Qc_ltb_lt. apply Qcle_lt_trans with (q + c); [|exact Hlt].
  apply Qcplus_le_compat; [exact Hle|apply Qcle_refl].
Qed.


End ExactThreshold.

Section ExactFitting.
Import Exact.
Local Open Scope Qc_scope.
Variable nanpercentile_1d : list exact -> exact -> exact.

(** The lower percentile [partial_fit] asks for is one numpy accepts only
    for a saturation fraction between 0 and 1. *)
Lemma valid_percentile_min (s : RobustMinMaxScaler exact) :
  valid_percentile (percentile_min s)
  = leb zero (saturation_fraction s) && leb (saturation_fraction s) one.
Proof.
  unfold valid_percentile, percentile_min, _quantile_is_valid.
  destruct (saturation_fraction s) as [|[]|q]; try reflexivity.
  replace (div (mul (EFin q) hundred) hundred) with (EFin q); [reflexivity|].
  change (EFin q = EFin (q * Q2Qc (inject_Z 100) / Q2Qc (inject_Z 100))).
  f_equal. field. intros E. apply (f_equal this) in E. discriminate.
Qed.


End ExactFitting.

(** Discharge the hypotheses of [H] one after the other by evaluation. *)
Ltac discharge H :=
  repeat match type of H with
         | ?P -> _ =>
             let h := fresh in
             assert (h : P) by (vm_compute; reflexivity);
             specialize (H h); clear h
         end.

(** ** Examples in binary64 *)

(** An instance of C1: at night, with no fudge factor, the cell is NaN. *)
Lemma transform_nan_where_fudged_ghi_is_zero_witness :
  exists Y y,
    ClearskyScalar_transform sample_spa_python sample_haurwitz
      (clearsky_world 0 [night] [[1%float]])
    = (Return Y, clearsky_world 0 [night] [[1%float]]) /\
    at_ Y 0 0 = Some y /\ isnan y = true.
Proof.
  apply (transform_nan_where_fudged_ghi_is_zero
           sample_spa_python sample_haurwitz
           (clearsky_world 0 [night] [[1%float]]) 0 0
           (x := 1%float) (g := 0%float)); reflexivity.
Defined.

(** C1 fails as stated: with the fudge factor 10 of the repository's demo, a
    night cell, whose raw GHI is zero, is divided by 10 and comes out as a
    number. *)
Lemma transform_of_a_fudged_night_cell_is_a_number :
  cell (raw_ghi sample_spa_python sample_haurwitz (site 10) [night]) 0 0
  = Some 0%float /\
  exists Y y,
    ClearskyScalar_transform sample_spa_python sample_haurwitz
      (clearsky_world 10 [night] [[1%float]])
    = (Return Y, clearsky_world 10 [night] [[1%float]]) /\
    at_ Y 0 0 = Some y /\ isnan y = false /\ y = (1 / 10)%float.
Proof.
  split; [reflexivity|]. do 2 eexists. repeat split.
Qed.


(** Away from overflow the round trip may still miss by a rounding. *)
Example roundtrip_rounds : (7 / 25 * 25 =? 7)%float = false.
Proof. reflexivity. Qed.





(** An instance of C7: two columns for one location. *)
Lemma column_count_mismatch_raises_witness :
  ClearskyScalar_transform sample_spa_python sample_haurwitz
    (clearsky_world 10 [day] [[1; 2]]%float)
  = (Raise AssertionError, clearsky_world 10 [day] [[1; 2]]%float) /\
  ClearskyScalar_inverse_transform sample_spa_python sample_haurwitz
    (clearsky_world 10 [day] [[1; 2]]%float)
  = (Raise AssertionError, clearsky_world 10 [day] [[1; 2]]%float) /\
  ClearskyScalar_filter_to_daylight sample_spa_python sample_haurwitz
    0%float true (clearsky_world 10 [day] [[1; 2]]%float)
  = (Raise AssertionError, clearsky_world 10 [day] [[1; 2]]%float).
Proof.
  apply (column_count_mismatch_raises sample_spa_python sample_haurwitz
           (clearsky_world 10 [day] [[1; 2]]%float) 0%float true).
  vm_compute. discriminate.
Defined.

(** An instance of C9, on a night and a daylight row. *)
Lemma filter_to_daylight_inplace_agrees_witness :
  exists Y,
    ClearskyScalar_filter_to_daylight sample_spa_python sample_haurwitz
      0%float false (clearsky_world 10 [night; day] [[1]; [2]]%float)
    = (Return (Some Y), clearsky_world 10 [night; day] [[1]; [2]]%float) /\
    ClearskyScalar_filter_to_daylight sample_spa_python sample_haurwitz
      0%float true (clearsky_world 10 [night; day] [[1]; [2]]%float)
    = (Return None, mkWorld (site 10) Y) /\
    index Y = [night; day] /\
    columns Y = [String.EmptyString].
Proof.
  apply (filter_to_daylight_inplace_agrees sample_spa_python sample_haurwitz
           (clearsky_world 10 [night; day] [[1]; [2]]%float) 0%float);
    reflexivity.
Defined.

(** An instance of C5: the bounds after two batches are those of the
    second. *)
Lemma robust_bounds_are_those_of_the_last_batch_witness :
  robust_data_min
    (partial_fits linear_percentile
       ([frame [night; day] [[0]; [10]]%float]
        ++ [frame [night; day] [[4]; [6]]%float]) default_scaler)
  = Some (map (fun c => linear_percentile c (percentile_min default_scaler))
            (columns_of (frame [night; day] [[4]; [6]]%float))).
Proof.
  apply (robust_bounds_are_those_of_the_last_batch linear_percentile
           default_scaler [frame [night; day] [[0]; [10]]%float]
           (frame [night; day] [[4]; [6]]%float)); reflexivity.
Defined.


(** Two more ways for a fitted scaler to miss the ends of the feature
    range.  After a second [partial_fit] the robust bounds are those of the
    last batch while [scale_] and [min_] span all batches: *)
Example transform_after_two_batches_misses_the_ends :
  exists Y,
    fst (RobustMinMaxScaler_transform (frame [night; day] [[0]; [10]]%float)
           (partial_fits linear_percentile
              [frame [night; day] [[0]; [10]]%float;
               frame [night; day] [[2]; [8]]%float]
              (RobustMinMaxScaler_init (zero, one) zero true)))
    = Return Y /\
    values Y = [[0x1.999999999999ap-3]; [0x1.999999999999ap-1]]%float.
Proof. eexists. split; reflexivity. Qed.

(** In one batch and away from equal bounds, rounding alone moves the
    image of the upper bound 6 past the upper end 1 of the range: *)
Example transform_rounds_above_the_feature_range :
  exists Y,
    fst (RobustMinMaxScaler_transform (frame [day] [[6%float]])
           (snd (MinMaxScaler_fit linear_percentile
                   (frame [night; day] [[1]; [6]]%float)
                   (RobustMinMaxScaler_init (zero, one) zero true))))
    = Return Y /\
    values Y = [[0x1.0000000000001p+0%float]] /\
    ltb 1%float 0x1.0000000000001p+0%float = true.
Proof. eexists. repeat split; vm_compute; reflexivity. Qed.

(** ** Examples in exact arithmetic *)


(** The percentiles are 1.99 and 99.01. *)
Example robust_bounds_of_one_to_hundred :
  robust_data_min fitted_scaler = Some [EFin (Q2Qc (199 # 100))] /\
  robust_data_max fitted_scaler = Some [EFin (Q2Qc (9901 # 100))].
Proof.
  split; vm_compute; do 3 f_equal; apply Qc_is_canon; reflexivity.
Qed.


(** The same scenario in binary64: here the two outliers happen to reach
    the ends of the range exactly. *)
Example scenario_in_binary64 :
  exists Y,
    fst (RobustMinMaxScaler_transform
           (frame [night; day] [[0]; [1000]]%float)
           (snd (MinMaxScaler_fit linear_percentile
                   (frame (map Z.of_nat (seq 0 100))
                      (map (fun i => [of_Z (Z.of_nat (S i))]) (seq 0 100)))
                   default_scaler)))
    = Return Y /\
    values Y = [[0]; [1]]%float.
Proof. eexists. split; vm_compute; reflexivity. Qed.


(** ** More examples in binary64 *)


(** An instance of X2, on a night and a daylight row. *)
Lemma clearsky_methods_keep_labels_and_shape_witness :
  exists Y Z F,
    ClearskyScalar_transform sample_spa_python sample_haurwitz
      (clearsky_world 10 [night; day] [[1]; [2]]%float)
    = (Return Y, clearsky_world 10 [night; day] [[1]; [2]]%float) /\
    ClearskyScalar_inverse_transform sample_spa_python sample_haurwitz
      (clearsky_world 10 [night; day] [[1]; [2]]%float)
    = (Return Z, clearsky_world 10 [night; day] [[1]; [2]]%float) /\
    ClearskyScalar_filter_to_daylight sample_spa_python sample_haurwitz
      0%float false (clearsky_world 10 [night; day] [[1]; [2]]%float)
    = (Return (Some F), clearsky_world 10 [night; day] [[1]; [2]]%float) /\
    (index Y = [night; day] /\ wf_frame Y = true) /\
    (index Z = [night; day] /\ wf_frame Z = true) /\
    (index F = [night; day] /\ wf_frame F = true).
Proof.
  destruct (clearsky_methods_keep_labels_and_shape
              sample_spa_python sample_haurwitz
              (clearsky_world 10 [night; day] [[1]; [2]]%float) 0%float
              eq_refl eq_refl eq_refl)
    as (Y & Z & F & HY & HZ & HF & (Y1 & _ & Y3) & (Z1 & _ & Z3)
        & (F1 & _ & F3)).
  exists Y, Z, F. repeat split; assumption.
Defined.

(** An instance of X3: the night cell is masked, the daylight cell kept. *)
Lemma filter_to_daylight_keeps_or_masks_witness :
  exists Y,
    ClearskyScalar_filter_to_daylight sample_spa_python sample_haurwitz
      0%float false (clearsky_world 10 [night; day] [[1]; [2]]%float)
    = (Return (Some Y), clearsky_world 10 [night; day] [[1]; [2]]%float) /\
    (at_ Y 1 0 = Some 2%float \/ at_ Y 1 0 = Some nan).
Proof.
  destruct (filter_to_daylight_keeps_or_masks
              sample_spa_python sample_haurwitz
              (clearsky_world 10 [night; day] [[1]; [2]]%float) 0%float
              eq_refl eq_refl eq_refl) as (Y & HY & Hcell).
  exists Y. split; [exact HY|].
  exact (proj1 (Hcell 1 0 2%float eq_refl)).
Defined.

(** An instance of X4. *)
Lemma filter_to_daylight_is_idempotent_witness :
  exists w,
    ClearskyScalar_filter_to_daylight sample_spa_python sample_haurwitz
      0%float true (clearsky_world 10 [night; day] [[1]; [2]]%float)
    = (Return None, w) /\
    ClearskyScalar_filter_to_daylight sample_spa_python sample_haurwitz
      0%float true w
    = (Return None, w).
Proof.
  apply (filter_to_daylight_is_idempotent sample_spa_python sample_haurwitz
           (clearsky_world 10 [night; day] [[1]; [2]]%float) 0%float);
    reflexivity.
Defined.

(** An instance of X5, with the thresholds 0 and 1000 W/m2. *)
Lemma filter_to_daylight_commutes_witness :
  exists Y1 Y2 Y,
    ClearskyScalar_filter_to_daylight sample_spa_python sample_haurwitz
      0%float false (clearsky_world 10 [night; day] [[1]; [2]]%float)
    = (Return (Some Y1), clearsky_world 10 [night; day] [[1]; [2]]%float) /\
    ClearskyScalar_filter_to_daylight sample_spa_python sample_haurwitz
      1000%float false (clearsky_world 10 [night; day] [[1]; [2]]%float)
    = (Return (Some Y2), clearsky_world 10 [night; day] [[1]; [2]]%float) /\
    fst (ClearskyScalar_filter_to_daylight sample_spa_python sample_haurwitz
           1000%float false (mkWorld (site 10) Y1)) = Return (Some Y) /\
    fst (ClearskyScalar_filter_to_daylight sample_spa_python sample_haurwitz
           0%float false (mkWorld (site 10) Y2)) = Return (Some Y).
Proof.
  apply (filter_to_daylight_commutes sample_spa_python sample_haurwitz
           (clearsky_world 10 [night; day] [[1]; [2]]%float)
           0%float 1000%float); reflexivity.
Defined.

(** An instance of X6: at night, with no fudge factor, the cell does not
    come back. *)
Lemma roundtrip_is_nan_where_fudged_ghi_is_zero_witness :
  exists Y Z z,
    ClearskyScalar_transform sample_spa_python sample_haurwitz
      (clearsky_world 0 [night] [[1%float]])
    = (Return Y, clearsky_world 0 [night] [[1%float]]) /\
    ClearskyScalar_inverse_transform sample_spa_python sample_haurwitz
      (mkWorld (site 0) Y)
    = (Return Z, mkWorld (site 0) Y) /\
    at_ Z 0 0 = Some z /\ isnan z = true.
Proof.
  apply (roundtrip_is_nan_where_fudged_ghi_is_zero
           sample_spa_python sample_haurwitz
           (clearsky_world 0 [night] [[1%float]]) 0 0
           (x := 1%float) (g := 0%float)); reflexivity.
Defined.



(** An instance of X12: [partial_fit] on two columns by a scaler fitted on
    one. *)
Lemma failed_partial_fit_has_stored_the_bounds_witness :
  fitted_ (snd (RobustMinMaxScaler_partial_fit linear_percentile two_columns
                  fitted_on_one_column))
  = fitted_ fitted_on_one_column /\
  robust_data_min
    (snd (RobustMinMaxScaler_partial_fit linear_percentile two_columns
            fitted_on_one_column))
  = Some (map (fun c => linear_percentile c
                          (percentile_min fitted_on_one_column))
            (columns_of two_columns)).
Proof.
  pose proof (@failed_partial_fit_has_stored_the_bounds float binary64
                linear_percentile fitted_on_one_column two_columns
                ValueError) as H.
  discharge H. destruct H as (_ & H1 & H2 & _). split; assumption.
Defined.

(** An instance of X14: a table of two columns for a scaler fitted on
    one. *)
Lemma transform_refuses_another_width_witness :
  RobustMinMaxScaler_transform two_columns fitted_on_one_column
  = (Raise ValueError, fitted_on_one_column).
Proof.
  apply (@transform_refuses_another_width float binary64 linear_percentile
           default_scaler fitted_on_one_column one_column two_columns).
  - vm_compute. reflexivity.
  - vm_compute. discriminate.
Defined.

(** An instance of X15. *)
Lemma scaler_transforms_keep_labels_and_shape_witness :
  (forall Y,
     fst (RobustMinMaxScaler_transform one_column fitted_on_one_column)
     = Return Y ->
     index Y = [night; day] /\ columns Y = columns one_column /\
     wf_frame Y = true) /\
  (forall Y,
     fst (RobustMinMaxScaler_inverse_transform one_column
            fitted_on_one_column) = Return Y ->
     index Y = [night; day] /\ columns Y = columns one_column /\
     wf_frame Y = true).
Proof.
  apply (@scaler_transforms_keep_labels_and_shape float binary64
           linear_percentile fitted_on_one_column one_column).
  - apply reach_fit, reach_init.
  - reflexivity.
Defined.

(** ** More examples in exact arithmetic *)




